(** * File monitoring system: the session store and its front end

    A shallow embedding of [database/init.sql] (tables, constraints, the
    trigger on [comments], the view [sessions_with_comments], the functions
    [close_old_sessions] and [get_current_editors]) and of the two page
    scripts that post a comment and group the change log by day, with the
    view [active_sessions] and the helpers of [api.js] ([fetchAPI] and the
    calls built on it, [apiRequest], [refreshUserData]).

    The handlers behind the HTTP API are not part of the sources; where a
    statement is about one of them, the handler is written down from the
    specification and marked as such.

    Tables are lists of rows in insertion order.  A UUID is a natural
    number, a TIMESTAMP an integer count of microseconds since 2000-01-01
    (as PostgreSQL keeps it), a nullable column an [option].  Statements
    return [Err] where PostgreSQL raises. *)

From Stdlib Require Import ZArith NArith List String Ascii Bool Lia.
From Stdlib Require Import Permutation Sorted DecimalString.
Import ListNotations.
Open Scope string_scope.
Open Scope list_scope.
Open Scope Z_scope.

(** ** Rows *)

Definition uuid := N.
Definition timestamp := Z.
Bind Scope N_scope with uuid.
Bind Scope Z_scope with timestamp.

(** [CREATE TABLE users] *)
Record user := mk_user {
  u_id : uuid;
  u_username : string;
  u_email : option string;
  u_created_at : option timestamp
}.

(** [CREATE TABLE files] *)
Record file := mk_file {
  f_id : uuid;
  f_file_path : string;
  f_file_name : string;
  f_created_at : option timestamp
}.

(** [CREATE TABLE file_sessions] *)
Record file_session := mk_file_session {
  fs_id : uuid;
  fs_user_id : uuid;
  fs_file_id : uuid;
  fs_started_at : timestamp;
  fs_last_activity : timestamp;
  fs_ended_at : option timestamp;
  fs_hash_before : option string;
  fs_hash_after : option string;
  fs_is_commented : bool;
  fs_resume_count : Z
}.

(** [CREATE TABLE file_events] *)
Record file_event := mk_file_event {
  fe_id : uuid;
  fe_session_id : uuid;
  fe_event_type : string;
  fe_file_hash : option string;
  fe_event_timestamp : timestamp
}.

(** [CREATE TABLE comments] *)
Record comment := mk_comment {
  c_id : uuid;
  c_session_id : uuid;
  c_user_id : uuid;
  c_content : string;
  c_change_type : string;
  c_created_at : option timestamp
}.

(** The store: one list per table ([reports] has no part in what follows). *)
Record db := mk_db {
  users : list user;
  files : list file;
  file_sessions : list file_session;
  file_events : list file_event;
  comments : list comment
}.

Definition empty_db : db := mk_db [] [] [] [] [].

Definition with_users (l : list user) (st : db) : db :=
  mk_db l (files st) (file_sessions st) (file_events st) (comments st).
Definition with_files (l : list file) (st : db) : db :=
  mk_db (users st) l (file_sessions st) (file_events st) (comments st).
Definition with_file_sessions (l : list file_session) (st : db) : db :=
  mk_db (users st) (files st) l (file_events st) (comments st).
Definition with_file_events (l : list file_event) (st : db) : db :=
  mk_db (users st) (files st) (file_sessions st) l (comments st).
Definition with_comments (l : list comment) (st : db) : db :=
  mk_db (users st) (files st) (file_sessions st) (file_events st) l.

Definition set_ended_at (v : option timestamp) (fs : file_session) : file_session :=
  mk_file_session (fs_id fs) (fs_user_id fs) (fs_file_id fs) (fs_started_at fs)
    (fs_last_activity fs) v (fs_hash_before fs) (fs_hash_after fs)
    (fs_is_commented fs) (fs_resume_count fs).

Definition set_is_commented (v : bool) (fs : file_session) : file_session :=
  mk_file_session (fs_id fs) (fs_user_id fs) (fs_file_id fs) (fs_started_at fs)
    (fs_last_activity fs) (fs_ended_at fs) (fs_hash_before fs) (fs_hash_after fs)
    v (fs_resume_count fs).

(** ** Errors and results *)

Inductive db_error :=
| unique_violation (constraint : string)
| foreign_key_violation (constraint : string)
| string_data_right_truncation (column : string)
| datetime_field_overflow.

Inductive result (A : Type) :=
| Ok (a : A)
| Err (e : db_error).
Arguments Ok {A} a.
Arguments Err {A} e.

Definition bind {A B} (r : result A) (k : A -> result B) : result B :=
  match r with
  | Ok a => k a
  | Err e => Err e
  end.

(** [check b e]: go on when the constraint [b] holds, raise [e] otherwise. *)
Definition check (b : bool) (e : db_error) : result unit :=
  if b then Ok tt else Err e.

Notation "x <- r ;; k" := (bind r (fun x => k))
  (at level 61, r at next level, right associativity).
Notation "r ;;; k" := (bind r (fun _ => k))
  (at level 61, right associativity).

(** ** Column types and predicates *)

(** A byte [10xxxxxx] continues a character of a UTF-8 string. *)
Definition continuation (a : ascii) : bool :=
  match a with
  | Ascii _ _ _ _ _ _ b6 b7 => b7 && negb b6
  end.

(** The number of characters of a string: PostgreSQL counts characters, not
    bytes (the strings are UTF-8, as the Cyrillic of the scripts is). *)
Fixpoint characters (s : string) : nat :=
  match s with
  | EmptyString => 0
  | String a s' => (if continuation a then 0 else 1) + characters s'
  end.

(** The values of [VARCHAR(n)]: the strings of at most [n] characters. *)
Definition varchar (n : nat) (s : string) : bool :=
  Nat.leb (characters s) n.

Definition varchar_null (n : nat) (s : option string) : bool :=
  match s with
  | Some v => varchar n v
  | None => true
  end.

(** The first [n] characters of a string, and what is left of it. *)
Fixpoint clip (n : nat) (s : string) : string * string :=
  match s with
  | EmptyString => (EmptyString, EmptyString)
  | String a s' =>
      if continuation a then
        let '(kept, excess) := clip n s' in (String a kept, excess)
      else
        match n with
        | O => (EmptyString, s)
        | S n' => let '(kept, excess) := clip n' s' in (String a kept, excess)
        end
  end.

Fixpoint blanks (s : string) : bool :=
  match s with
  | EmptyString => true
  | String a s' => Ascii.eqb a " " && blanks s'
  end.

(** The assignment cast to [VARCHAR(n)], which a value goes through on its
    way into a column: what is beyond [n] characters is cut when it is all
    blanks, and raises SQLSTATE 22001 otherwise. *)
Definition varchar_cast (n : nat) (column : string) (s : string) : result string :=
  let '(kept, excess) := clip n s in
  if blanks excess then Ok kept else Err (string_data_right_truncation column).

Definition varchar_null_cast (n : nat) (column : string) (s : option string)
  : result (option string) :=
  match s with
  | Some v => v' <- varchar_cast n column v ;; Ok (Some v')
  | None => Ok None
  end.

(** [x IS NULL] *)
Definition is_null {A} (x : option A) : bool :=
  match x with
  | Some _ => false
  | None => true
  end.

(** ** UPDATE in one pass

    [UPDATE t SET ... WHERE ...] visits each row once, rewrites the rows the
    condition selects and counts them ([ROW_COUNT]). *)
Fixpoint sql_update {A} (where_ : A -> bool) (set_ : A -> A) (t : list A)
  : list A * Z :=
  match t with
  | [] => ([], 0)
  | r :: t' =>
      let '(rows, n) := sql_update where_ set_ t' in
      if where_ r then (set_ r :: rows, n + 1) else (r :: rows, n)
  end.

(** ** [close_old_sessions] *)

(** [(max_age_hours || ' hours')::INTERVAL], in microseconds. *)
Definition hours (max_age_hours : Z) : Z := max_age_hours * 3600000000.

(** The WHERE clause of the function; [now] is [CURRENT_TIMESTAMP]. *)
Definition stale (now : timestamp) (max_age_hours : Z) (fs : file_session) : bool :=
  is_null (fs_ended_at fs) && (fs_last_activity fs <? now - hours max_age_hours).

(** [SET ended_at = last_activity] *)
Definition end_at_last_activity (fs : file_session) : file_session :=
  set_ended_at (Some (fs_last_activity fs)) fs.

(** The UPDATE of the function and its [GET DIAGNOSTICS closed_count =
    ROW_COUNT]: the tables after the call and the integer returned. *)
Definition close_old_sessions (now : timestamp) (max_age_hours : Z) (st : db)
  : db * Z :=
  let '(rows, closed_count) :=
    sql_update (stale now max_age_hours) end_at_last_activity (file_sessions st) in
  (with_file_sessions rows st, closed_count).

(** The range of timestamps: from 4713 BC up to, not including, the year
    294277. *)
Definition MIN_TIMESTAMP : timestamp := -211813488000000000.
Definition END_TIMESTAMP : timestamp := 9223371331200000000.

Definition IS_VALID_TIMESTAMP (t : Z) : bool :=
  (MIN_TIMESTAMP <=? t) && (t <? END_TIMESTAMP).

(** [SELECT close_old_sessions(max_age_hours)] as the engine runs it:
    [CURRENT_TIMESTAMP - interval] raises SQLSTATE 22008 when the result is
    outside the range of timestamps; the planner works the cutoff out before
    any row is read, so the call then raises whatever the table holds, the
    statement is rolled back and nothing is returned.  ([max_age_hours] is
    an INTEGER, so the interval itself is always in range.) *)
Definition call_close_old_sessions (now : timestamp) (max_age_hours : Z) (st : db)
  : result (db * Z) :=
  if IS_VALID_TIMESTAMP (now - hours max_age_hours)
  then Ok (close_old_sessions now max_age_hours st)
  else Err datetime_field_overflow.

(** ** The trigger on [comments]

    [update_session_commented_flag], fired by [trg_comment_changes] AFTER
    INSERT OR DELETE, FOR EACH ROW.  [row] is NEW on insert, OLD on delete. *)
Inductive tg_op := TG_INSERT | TG_DELETE.

Definition update_session_commented_flag (op : tg_op) (row : comment)
  (t : list file_session) : list file_session :=
  match op with
  | TG_INSERT =>
      fst (sql_update (fun fs => N.eqb (fs_id fs) (c_session_id row))
             (set_is_commented true) t)
  | TG_DELETE =>
      fst (sql_update (fun fs => N.eqb (fs_id fs) (c_session_id row))
             (set_is_commented false) t)
  end.

(** ** Statements on the tables

    The functions of this section take rows whose strings are values of
    their column types, as the assignment casts leave them ([assign] below
    does the casts); a string that is no such value does not get this far,
    and is refused.  After the column types an INSERT checks the primary key
    and UNIQUE indexes, then the foreign keys. *)

Definition insert_user (u : user) (st : db) : result db :=
  check (varchar 100 (u_username u)) (string_data_right_truncation "username") ;;;
  check (varchar_null 255 (u_email u)) (string_data_right_truncation "email") ;;;
  check (negb (existsb (fun x => N.eqb (u_id x) (u_id u)) (users st)))
    (unique_violation "users_pkey") ;;;
  check (negb (existsb (fun x => String.eqb (u_username x) (u_username u)) (users st)))
    (unique_violation "users_username_key") ;;;
  Ok (with_users (users st ++ [u]) st).

Definition insert_file (f : file) (st : db) : result db :=
  check (varchar 1000 (f_file_path f)) (string_data_right_truncation "file_path") ;;;
  check (varchar 255 (f_file_name f)) (string_data_right_truncation "file_name") ;;;
  check (negb (existsb (fun x => N.eqb (f_id x) (f_id f)) (files st)))
    (unique_violation "files_pkey") ;;;
  check (negb (existsb (fun x => String.eqb (f_file_path x) (f_file_path f)) (files st)))
    (unique_violation "files_file_path_key") ;;;
  Ok (with_files (files st ++ [f]) st).

(** [INSERT INTO file_sessions]: every column is stored as given,
    [is_commented] too, which is an ordinary column ([DEFAULT FALSE] is what
    an INSERT that does not name it stores; NULL, which the column admits and
    which the view and the pages read as false, is not told apart from
    false).  [idx_file_sessions_active] is a plain [CREATE INDEX]; it
    constrains nothing, so no check stands for it. *)
Definition insert_session (r : file_session) (st : db) : result db :=
  check (varchar_null 64 (fs_hash_before r)) (string_data_right_truncation "hash_before") ;;;
  check (varchar_null 64 (fs_hash_after r)) (string_data_right_truncation "hash_after") ;;;
  check (negb (existsb (fun x => N.eqb (fs_id x) (fs_id r)) (file_sessions st)))
    (unique_violation "file_sessions_pkey") ;;;
  check (existsb (fun u => N.eqb (u_id u) (fs_user_id r)) (users st))
    (foreign_key_violation "file_sessions_user_id_fkey") ;;;
  check (existsb (fun f => N.eqb (f_id f) (fs_file_id r)) (files st))
    (foreign_key_violation "file_sessions_file_id_fkey") ;;;
  Ok (with_file_sessions (file_sessions st ++ [r]) st).

(** [UPDATE file_sessions SET last_activity, ended_at, hash_after,
    resume_count WHERE id = sid]: the write behind a heartbeat, a resume or a
    close.  Key columns and [is_commented] are not assigned. *)
Definition touch (la : timestamp) (ea : option timestamp) (ha : option string)
  (rc : Z) (fs : file_session) : file_session :=
  mk_file_session (fs_id fs) (fs_user_id fs) (fs_file_id fs) (fs_started_at fs)
    la ea (fs_hash_before fs) ha (fs_is_commented fs) rc.

Definition update_session (sid : uuid) (la : timestamp) (ea : option timestamp)
  (ha : option string) (rc : Z) (st : db) : result db :=
  check (varchar_null 64 ha) (string_data_right_truncation "hash_after") ;;;
  Ok (with_file_sessions
        (fst (sql_update (fun fs => N.eqb (fs_id fs) sid) (touch la ea ha rc)
                (file_sessions st))) st).

(** [UPDATE file_sessions SET is_commented = v WHERE id = sid]: the column
    can be assigned like any other; no trigger watches [file_sessions]. *)
Definition update_is_commented (sid : uuid) (v : bool) (st : db) : db :=
  with_file_sessions
    (fst (sql_update (fun fs => N.eqb (fs_id fs) sid) (set_is_commented v)
            (file_sessions st))) st.

Definition insert_event (e : file_event) (st : db) : result db :=
  check (varchar 20 (fe_event_type e)) (string_data_right_truncation "event_type") ;;;
  check (varchar_null 64 (fe_file_hash e)) (string_data_right_truncation "file_hash") ;;;
  check (negb (existsb (fun x => N.eqb (fe_id x) (fe_id e)) (file_events st)))
    (unique_violation "file_events_pkey") ;;;
  check (existsb (fun fs => N.eqb (fs_id fs) (fe_session_id e)) (file_sessions st))
    (foreign_key_violation "file_events_session_id_fkey") ;;;
  Ok (with_file_events (file_events st ++ [e]) st).

(** [INSERT INTO comments]: [session_id] is UNIQUE and references
    [file_sessions]; nothing here looks at the session's [ended_at], at the
    text of [content] or at the value of [change_type].  The row trigger runs
    once the row is in. *)
Definition insert_comment (c : comment) (st : db) : result db :=
  check (varchar 50 (c_change_type c)) (string_data_right_truncation "change_type") ;;;
  check (negb (existsb (fun x => N.eqb (c_id x) (c_id c)) (comments st)))
    (unique_violation "comments_pkey") ;;;
  check (negb (existsb (fun x => N.eqb (c_session_id x) (c_session_id c)) (comments st)))
    (unique_violation "comments_session_id_key") ;;;
  check (existsb (fun fs => N.eqb (fs_id fs) (c_session_id c)) (file_sessions st))
    (foreign_key_violation "comments_session_id_fkey") ;;;
  check (existsb (fun u => N.eqb (u_id u) (c_user_id c)) (users st))
    (foreign_key_violation "comments_user_id_fkey") ;;;
  Ok (with_file_sessions
        (update_session_commented_flag TG_INSERT c (file_sessions st))
        (with_comments (comments st ++ [c]) st)).

Definition set_comment (sid : uuid) (content change_type : string) (c : comment)
  : comment :=
  mk_comment (c_id c) sid (c_user_id c) content change_type (c_created_at c).

(** [UPDATE comments SET session_id = sid, content = ..., change_type = ...
    WHERE id = cid].  [trg_comment_changes] is AFTER INSERT OR DELETE: it
    does not fire on UPDATE.  With no row of that id no constraint is
    checked. *)
Definition update_comment (cid sid : uuid) (content change_type : string) (st : db)
  : result db :=
  check (varchar 50 change_type) (string_data_right_truncation "change_type") ;;;
  if existsb (fun c => N.eqb (c_id c) cid) (comments st) then
    check (negb (existsb (fun c => negb (N.eqb (c_id c) cid)
                                   && N.eqb (c_session_id c) sid) (comments st)))
      (unique_violation "comments_session_id_key") ;;;
    check (existsb (fun fs => N.eqb (fs_id fs) sid) (file_sessions st))
      (foreign_key_violation "comments_session_id_fkey") ;;;
    Ok (with_comments
          (fst (sql_update (fun c => N.eqb (c_id c) cid)
                  (set_comment sid content change_type) (comments st))) st)
  else Ok st.

(** [DELETE FROM comments WHERE p]: the rows go, then the row trigger runs
    for each of them. *)
Definition delete_comments_where (p : comment -> bool) (st : db) : db :=
  let gone := filter p (comments st) in
  with_file_sessions
    (fold_left (fun t c => update_session_commented_flag TG_DELETE c t) gone
       (file_sessions st))
    (with_comments (filter (fun c => negb (p c)) (comments st)) st).

Definition delete_comment (cid : uuid) (st : db) : db :=
  delete_comments_where (fun c => N.eqb (c_id c) cid) st.

(** [DELETE FROM file_sessions WHERE p], with the two [ON DELETE CASCADE]
    references of [file_events] and [comments]: the events and comments of
    the deleted sessions go with them, and the row trigger runs for each
    deleted comment. *)
Definition delete_sessions_where (p : file_session -> bool) (st : db) : db :=
  let gone := filter p (file_sessions st) in
  let of_gone (sid : uuid) := existsb (fun fs => N.eqb (fs_id fs) sid) gone in
  let st1 :=
    with_file_sessions (filter (fun fs => negb (p fs)) (file_sessions st)) st in
  let st2 :=
    with_file_events
      (filter (fun e => negb (of_gone (fe_session_id e))) (file_events st1)) st1 in
  delete_comments_where (fun c => of_gone (c_session_id c)) st2.

Definition delete_session (sid : uuid) (st : db) : db :=
  delete_sessions_where (fun fs => N.eqb (fs_id fs) sid) st.

(** [DELETE FROM users WHERE id = uid]: [file_sessions.user_id] and
    [comments.user_id] are both [ON DELETE CASCADE].  The statement is
    atomic; its effect is written here children first. *)
Definition delete_user (uid : uuid) (st : db) : db :=
  let st1 := delete_comments_where (fun c => N.eqb (c_user_id c) uid) st in
  let st2 := delete_sessions_where (fun fs => N.eqb (fs_user_id fs) uid) st1 in
  with_users (filter (fun u => negb (N.eqb (u_id u) uid)) (users st2)) st2.

(** [DELETE FROM files WHERE id = fid], cascading to the file's sessions. *)
Definition delete_file (fid : uuid) (st : db) : db :=
  let st1 := delete_sessions_where (fun fs => N.eqb (fs_file_id fs) fid) st in
  with_files (filter (fun f => negb (N.eqb (f_id f) fid)) (files st1)) st1.

(** ** Runs of the store *)

Inductive stmt :=
| InsertUser (u : user)
| InsertFile (f : file)
| InsertSession (r : file_session)
| UpdateSession (sid : uuid) (la : timestamp) (ea : option timestamp)
    (ha : option string) (rc : Z)
| SetCommented (sid : uuid) (v : bool)
| InsertEvent (e : file_event)
| InsertComment (c : comment)
| UpdateComment (cid sid : uuid) (content change_type : string)
| DeleteComment (cid : uuid)
| DeleteSession (sid : uuid)
| DeleteUser (uid : uuid)
| DeleteFile (fid : uuid)
| CloseOldSessions (now : timestamp) (max_age_hours : Z).

(** The assignment casts of a statement: each string bound for a
    [VARCHAR(n)] column becomes a value of the type, or the statement
    raises. *)
Definition assign (s : stmt) : result stmt :=
  match s with
  | InsertUser u =>
      username <- varchar_cast 100 "username" (u_username u) ;;
      email <- varchar_null_cast 255 "email" (u_email u) ;;
      Ok (InsertUser (mk_user (u_id u) username email (u_created_at u)))
  | InsertFile f =>
      file_path <- varchar_cast 1000 "file_path" (f_file_path f) ;;
      file_name <- varchar_cast 255 "file_name" (f_file_name f) ;;
      Ok (InsertFile (mk_file (f_id f) file_path file_name (f_created_at f)))
  | InsertSession r =>
      hash_before <- varchar_null_cast 64 "hash_before" (fs_hash_before r) ;;
      hash_after <- varchar_null_cast 64 "hash_after" (fs_hash_after r) ;;
      Ok (InsertSession
            (mk_file_session (fs_id r) (fs_user_id r) (fs_file_id r) (fs_started_at r)
               (fs_last_activity r) (fs_ended_at r) hash_before hash_after
               (fs_is_commented r) (fs_resume_count r)))
  | UpdateSession sid la ea ha rc =>
      hash_after <- varchar_null_cast 64 "hash_after" ha ;;
      Ok (UpdateSession sid la ea hash_after rc)
  | InsertEvent e =>
      event_type <- varchar_cast 20 "event_type" (fe_event_type e) ;;
      file_hash <- varchar_null_cast 64 "file_hash" (fe_file_hash e) ;;
      Ok (InsertEvent
            (mk_file_event (fe_id e) (fe_session_id e) event_type file_hash
               (fe_event_timestamp e)))
  | InsertComment c =>
      change_type <- varchar_cast 50 "change_type" (c_change_type c) ;;
      Ok (InsertComment
            (mk_comment (c_id c) (c_session_id c) (c_user_id c) (c_content c)
               change_type (c_created_at c)))
  | UpdateComment cid sid content change_type =>
      change_type <- varchar_cast 50 "change_type" change_type ;;
      Ok (UpdateComment cid sid content change_type)
  | _ => Ok s
  end.

(** A statement on values of the column types. *)
Definition exec_assigned (s : stmt) (st : db) : result db :=
  match s with
  | InsertUser u => insert_user u st
  | InsertFile f => insert_file f st
  | InsertSession r => insert_session r st
  | UpdateSession sid la ea ha rc => update_session sid la ea ha rc st
  | SetCommented sid v => Ok (update_is_commented sid v st)
  | InsertEvent e => insert_event e st
  | InsertComment c => insert_comment c st
  | UpdateComment cid sid content change_type =>
      update_comment cid sid content change_type st
  | DeleteComment cid => Ok (delete_comment cid st)
  | DeleteSession sid => Ok (delete_session sid st)
  | DeleteUser uid => Ok (delete_user uid st)
  | DeleteFile fid => Ok (delete_file fid st)
  | CloseOldSessions now h =>
      r <- call_close_old_sessions now h st ;; Ok (fst r)
  end.

(** A statement as a client sends it. *)
Definition exec (s : stmt) (st : db) : result db :=
  s' <- assign s ;; exec_assigned s' st.

Fixpoint run (l : list stmt) (st : db) : result db :=
  match l with
  | [] => Ok st
  | s :: l' => st' <- exec s st ;; run l' st'
  end.

(** The states the store can be in: those a run of statements that all
    succeed leads to from the empty tables. *)
Inductive reachable : db -> Prop :=
| reachable_empty : reachable empty_db
| reachable_exec st s st' :
    reachable st -> exec s st = Ok st' -> reachable st'.

(** The statements that leave [is_commented] to its default and to the
    trigger: an INSERT of a session with the flag false, and everything but
    an UPDATE of the flag or of a comment. *)
Definition leaves_flag_to_trigger (s : stmt) : bool :=
  match s with
  | InsertSession r => negb (fs_is_commented r)
  | SetCommented _ _ => false
  | UpdateComment _ _ _ _ => false
  | _ => true
  end.

(** ** Queries *)

(** [FROM file_sessions fs JOIN users u ON fs.user_id = u.id
     JOIN files f ON fs.file_id = f.id] *)
Definition joined (st : db) : list (file_session * user * file) :=
  flat_map (fun fs =>
    flat_map (fun u =>
      map (fun f => (fs, u, f))
        (filter (fun f => N.eqb (fs_file_id fs) (f_id f)) (files st)))
      (filter (fun u => N.eqb (fs_user_id fs) (u_id u)) (users st)))
    (file_sessions st).

(** The row type of [get_current_editors]. *)
Record editor := mk_editor {
  ed_username : string;
  ed_file_path : string;
  ed_file_name : string;
  ed_last_activity : timestamp;
  ed_session_id : uuid
}.

(** [ORDER BY last_activity DESC], by insertion. *)
Fixpoint insert_desc (r : editor) (l : list editor) : list editor :=
  match l with
  | [] => [r]
  | x :: l' =>
      if ed_last_activity x <? ed_last_activity r
      then r :: l
      else x :: insert_desc r l'
  end.

Definition order_by_last_activity_desc (l : list editor) : list editor :=
  fold_right insert_desc [] l.

Section Engine.

(** [text LIKE pattern] is the engine's operator, not this program's. *)
Variable LIKE : string -> string -> bool.

Definition current_editor (file_path_pattern : string)
  (row : file_session * user * file) : bool :=
  let '(fs, _, f) := row in
  is_null (fs_ended_at fs) && LIKE (f_file_path f) file_path_pattern.

Definition editor_row (row : file_session * user * file) : editor :=
  let '(fs, u, f) := row in
  mk_editor (u_username u) (f_file_path f) (f_file_name f)
    (fs_last_activity fs) (fs_id fs).

Definition get_current_editors (file_path_pattern : string) (st : db)
  : list editor :=
  order_by_last_activity_desc
    (map editor_row (filter (current_editor file_path_pattern) (joined st))).

End Engine.

(** A LIKE for patterns made of [%], [_] and plain characters, to run the
    function on examples. *)
Fixpoint like_chars (p : string) (s : string) {struct p} : bool :=
  match p with
  | EmptyString => match s with EmptyString => true | _ => false end
  | String a p' =>
      if Ascii.eqb a "%" then
        (fix skip (s : string) : bool :=
           like_chars p' s
           || match s with
              | EmptyString => false
              | String _ s' => skip s'
              end) s
      else
        match s with
        | EmptyString => false
        | String b s' =>
            (Ascii.eqb a "_" || Ascii.eqb a b) && like_chars p' s'
        end
  end.

Definition like (text pattern : string) : bool := like_chars pattern text.

(** The row type of the view [sessions_with_comments]. *)
Record commented_session := mk_commented_session {
  sc_session_id : uuid;
  sc_started_at : timestamp;
  sc_ended_at : option timestamp;
  sc_last_activity : timestamp;
  sc_resume_count : Z;
  sc_username : string;
  sc_file_path : string;
  sc_file_name : string;
  sc_comment_content : option string;
  sc_change_type : option string;
  sc_comment_created_at : option timestamp
}.

(** [LEFT JOIN comments c ON fs.id = c.session_id]: one row per matching
    comment, a single all-NULL one when there is none. *)
Definition left_join_comments (st : db) (fs : file_session) : list (option comment) :=
  match filter (fun c => N.eqb (fs_id fs) (c_session_id c)) (comments st) with
  | [] => [None]
  | cs => map Some cs
  end.

Definition commented_session_row
  (row : file_session * user * file * option comment) : commented_session :=
  let '(fs, u, f, c) := row in
  mk_commented_session (fs_id fs) (fs_started_at fs) (fs_ended_at fs)
    (fs_last_activity fs) (fs_resume_count fs)
    (u_username u) (f_file_path f) (f_file_name f)
    (option_map c_content c) (option_map c_change_type c)
    (match c with Some x => c_created_at x | None => None end).

(** [CREATE VIEW sessions_with_comments ... WHERE fs.is_commented = TRUE];
    like [active_sessions] below it has no ORDER BY, and the list is one of
    the orders the engine may return. *)
Definition sessions_with_comments (st : db) : list commented_session :=
  map commented_session_row
    (filter (fun row => let '(fs, _, _, _) := row in fs_is_commented fs)
       (flat_map (fun row => let '(fs, _, _) := row in
                    map (fun c => (row, c)) (left_join_comments st fs))
          (joined st))).

(** ** The pages *)

(** What the sessions page reads of a session object. *)
Record session_item := mk_session_item {
  si_id : uuid;
  si_file_name : string;
  si_file_path : string;
  si_started_at : timestamp;
  si_last_activity : timestamp;
  si_ended_at : option timestamp;
  si_is_commented : bool
}.

(** [session.ended_at ? 'Closed' : 'Open'] *)
Definition status (session : session_item) : string :=
  if is_null (si_ended_at session) then "Open" else "Closed".

(** The select, the textarea and the button are in the card unless
    [session.is_commented]; the status plays no part. *)
Definition comment_form (session : session_item) : bool :=
  negb (si_is_commented session).

Inductive page_effect :=
| postComment (sessionId : uuid) (content changeType : string)
| alert (message : string).

(** The click listener of the comment button, on the session object the
    card was built from; [content] and [changeType] are the values of the
    textarea and of the select at the click.  [if (content)] is false on the
    empty string only.  There is no listener when the form is absent. *)
Definition comment_btn_click (session : session_item) (content changeType : string)
  : option page_effect :=
  if comment_form session then
    match content with
    | EmptyString => Some (alert "Comment is required")
    | _ => Some (postComment (si_id session) content changeType)
    end
  else None.

Section ChangesPage.

(** [new Date(t).toLocaleDateString()]: the calendar day of [t] in the
    browser's locale and time zone. *)
Variable toLocaleDateString : timestamp -> string.

Context {A : Type}.
Variable started_at : A -> timestamp.

(** [if (!acc[date]) acc[date] = []; acc[date].push(session)], the object
    being the list of its entries in insertion order. *)
Fixpoint acc_push (date : string) (session : A) (acc : list (string * list A))
  : list (string * list A) :=
  match acc with
  | [] => [(date, [session])]
  | (d, sessions) :: acc' =>
      if String.eqb d date
      then (d, sessions ++ [session]) :: acc'
      else (d, sessions) :: acc_push date session acc'
  end.

(** [changes.reduce(..., {})], read back with [Object.entries].  A rendered
    date is neither an array index nor the name of a property that objects
    inherit, so the entries come back in insertion order and a date is found
    in the object only once it has been put there. *)
Definition grouped (changes : list A) : list (string * list A) :=
  fold_left
    (fun acc session =>
       acc_push (toLocaleDateString (started_at session)) session acc)
    changes [].

End ChangesPage.

(** [session.comment ? session.comment.content : 'No comment'] and
    [session.comment ? session.comment.change_type : 'N/A'] *)
Definition card_comment (comment : option (string * string)) : string * string :=
  match comment with
  | Some (content, change_type) => (content, change_type)
  | None => ("No comment", "N/A")
  end.

(** ** The handlers

    The server behind [API_BASE] is not in the sources.  The two handlers
    that statements below are about are written from the specification, on
    top of the statements of the schema. *)

(** What the changes page reads of an element of the response to
    [GET /sessions/comments]: [comment] is an object with [content] and
    [change_type], or missing. *)
Record change := mk_change {
  ch_id : uuid;
  ch_file_name : string;
  ch_file_path : string;
  ch_username : string;
  ch_started_at : timestamp;
  ch_comment : option (string * string)
}.

(** Modelled from the spec: the handler of [GET /sessions/comments] is not in
    the sources.  'Each entry carrying the bound comment if present': the
    comment of a session is the row of [comments] bound to it, if any. *)
Definition bound_comment (st : db) (fs : file_session) : option (string * string) :=
  option_map (fun c => (c_content c, c_change_type c))
    (find (fun c => N.eqb (c_session_id c) (fs_id fs)) (comments st)).

(** Modelled from the spec: the handler of [GET /sessions/comments] is not in
    the sources.  [changeTimeline() -> list<session x comment>]: one entry
    per session, with the names the page reads and the bound comment if
    present. *)
Definition session_comments (st : db) : list change :=
  map (fun row : file_session * user * file =>
         let '(fs, u, f) := row in
         mk_change (fs_id fs) (f_file_name f) (f_file_path f) (u_username u)
           (fs_started_at fs) (bound_comment st fs))
    (joined st).

(** Modelled from the spec: the handler of [GET /sessions/comments] is not in
    the sources.  'Grouped by calendar day of [started_at]': the grouping is
    the one of the changes page, applied to the handler's list. *)
Definition changeTimeline (toLocaleDateString : timestamp -> string) (st : db)
  : list (string * list change) :=
  grouped toLocaleDateString ch_started_at (session_comments st).

(** Modelled from the spec: the handler of [POST /comments] is not in the
    sources.  The failures the specification names for [addComment], and
    the errors of the store. *)
Inductive comment_error :=
| SessionNotFound
| SessionStillOpen
| AlreadyCommented
| InvalidChangeType
| EmptyContent
| StorageError (e : db_error).

(** Modelled from the spec: the handler of [POST /comments] is not in the
    sources.  [addComment] persists a comment, giving the new state, or
    fails and leaves the store as it is. *)
Inductive added :=
| Added (st' : db) (c : comment)
| Failed (errors : list comment_error).

(** Space, tab, line feed, carriage return. *)
Definition white_space (a : ascii) : bool :=
  Ascii.eqb a " " || Ascii.eqb a "009" || Ascii.eqb a "010" || Ascii.eqb a "013".

(** Modelled from the spec: the handler of [POST /comments] is not in the
    sources.  'Content is blank': it has no character but white space. *)
Fixpoint blank (content : string) : bool :=
  match content with
  | EmptyString => true
  | String a content' => white_space a && blank content'
  end.

(** Modelled from the spec: the handler of [POST /comments] is not in the
    sources.  'Fails with SessionNotFound/SessionStillOpen if the session
    doesn't exist or [ended_at IS NULL]; fails with InvalidChangeType if
    [changeType] is not in the enumerated set; fails with EmptyContent if
    content is blank.'  The specification gives the checks no order: each
    one that fails is reported. *)
Definition addComment_checks (change_types : list string) (sessionId : uuid)
  (content changeType : string) (st : db) : list comment_error :=
  match find (fun fs => N.eqb (fs_id fs) sessionId) (file_sessions st) with
  | None => [SessionNotFound]
  | Some fs => if is_null (fs_ended_at fs) then [SessionStillOpen] else []
  end
  ++ (if existsb (String.eqb changeType) change_types then [] else [InvalidChangeType])
  ++ (if blank content then [EmptyContent] else []).

(** Modelled from the spec: the handler of [POST /comments] is not in the
    sources.  'Fails with AlreadyCommented if a Comment already exists for
    this session (unique constraint)': the failure is the INSERT's. *)
Definition comment_error_of (e : db_error) : comment_error :=
  match e with
  | unique_violation constraint =>
      if String.eqb constraint "comments_session_id_key"
      then AlreadyCommented else StorageError e
  | _ => StorageError e
  end.

(** Modelled from the spec: the handler of [POST /comments] is not in the
    sources.  [addComment(sessionId, authorUser, content, changeType)]: when
    no check fails the comment is persisted by the INSERT of the schema,
    whose trigger sets [is_commented]; [comment_id] and [now] are the id and
    the creation time the new row gets, [change_types] the enumerated set. *)
Definition addComment (change_types : list string) (comment_id : uuid) (now : timestamp)
  (sessionId authorUser : uuid) (content changeType : string) (st : db) : added :=
  match addComment_checks change_types sessionId content changeType st with
  | [] =>
      let c := mk_comment comment_id sessionId authorUser content changeType (Some now) in
      match insert_comment c st with
      | Ok st' => Added st' c
      | Err e => Failed [comment_error_of e]
      end
  | errors => Failed errors
  end.

(** ** Vocabulary of the statements proved below *)

(** A session is open while [ended_at IS NULL]. *)
Definition open (fs : file_session) : bool := is_null (fs_ended_at fs).

(** [fs], open before, is the ended [fs'] after. *)
Definition reclaimed (p : file_session * file_session) : bool :=
  open (fst p) && negb (open (snd p)).

(** The open sessions of a (user, file) pair. *)
Definition open_sessions_of (uid fid : uuid) (st : db) : list file_session :=
  filter (fun fs => open fs && N.eqb (fs_user_id fs) uid && N.eqb (fs_file_id fs) fid)
    (file_sessions st).

(** The comments bound to a session. *)
Definition comments_of (sid : uuid) (st : db) : list comment :=
  filter (fun c => N.eqb (c_session_id c) sid) (comments st).

(** [a] comes no later than [b] under [ORDER BY last_activity DESC]. *)
Definition desc (a b : editor) : Prop := ed_last_activity b <= ed_last_activity a.

(** [acc[date]], read on the list of entries. *)
Fixpoint acc_get {A} (date : string) (acc : list (string * list A))
  : option (list A) :=
  match acc with
  | [] => None
  | (d, sessions) :: acc' =>
      if String.eqb d date then Some sessions else acc_get date acc'
  end.

(** What the object holds after the sessions of [seen] have been pushed:
    one entry per day seen, with the sessions of that day in order. *)
Definition groups_of {A} (toLocaleDateString : timestamp -> string)
  (started_at : A -> timestamp) (seen : list A) (acc : list (string * list A))
  : Prop :=
  NoDup (map fst acc)
  /\ forall d, acc_get d acc =
               match filter (fun session =>
                               String.eqb (toLocaleDateString (started_at session)) d)
                       seen with
               | [] => None
               | sessions => Some sessions
               end.

(** The sessions shown in a grouped change log. *)
Definition shown {A} (timeline : list (string * list A)) : list A :=
  List.concat (map snd timeline).

(** The constraints the schema declares, named as PostgreSQL names them. *)
Record consistent (st : db) : Prop := mk_consistent {
  users_pkey : NoDup (map u_id (users st));
  users_username_key : NoDup (map u_username (users st));
  files_pkey : NoDup (map f_id (files st));
  files_file_path_key : NoDup (map f_file_path (files st));
  file_sessions_pkey : NoDup (map fs_id (file_sessions st));
  file_events_pkey : NoDup (map fe_id (file_events st));
  comments_pkey : NoDup (map c_id (comments st));
  comments_session_id_key : NoDup (map c_session_id (comments st));
  file_sessions_user_id_fkey :
    incl (map fs_user_id (file_sessions st)) (map u_id (users st));
  file_sessions_file_id_fkey :
    incl (map fs_file_id (file_sessions st)) (map f_id (files st));
  file_events_session_id_fkey :
    incl (map fe_session_id (file_events st)) (map fs_id (file_sessions st));
  comments_session_id_fkey :
    incl (map c_session_id (comments st)) (map fs_id (file_sessions st));
  comments_user_id_fkey :
    incl (map c_user_id (comments st)) (map u_id (users st))
}.

(** The agreement of [is_commented] with the [comments] table; no
    constraint of the schema says it. *)
Definition flag_synced (st : db) : Prop :=
  Forall (fun fs =>
            fs_is_commented fs = true <->
            In (fs_id fs) (map c_session_id (comments st)))
    (file_sessions st).

(** ** Sample rows *)

Definition alice : user := mk_user 1 "alice" None (Some 0).
Definition a_py : file := mk_file 1 "/monitor/a.py" "a.py" (Some 0).
Definition b_md : file := mk_file 2 "/docs/b.md" "b.md" (Some 0).

(** An open session of alice on a.py, last heard of at [la]. *)
Definition session_at (id : uuid) (la : timestamp) : file_session :=
  mk_file_session id 1 1 100 la None (Some "h0") None false 0.

Definition fixed_bug (id sid : uuid) : comment :=
  mk_comment id sid 1 "fixed bug" "bugfix" (Some 900).

(** A closed session of alice on a.py, and the same store once commented. *)
Definition closed_session (id : uuid) : file_session :=
  mk_file_session id 1 1 100 700 (Some 800) (Some "h0") (Some "h2") false 0.

Definition closed_store : db :=
  mk_db [alice] [a_py] [closed_session 1] [] [].

Definition commented_store : db :=
  mk_db [alice] [a_py] [set_is_commented true (closed_session 1)] []
    [fixed_bug 1 1].

(** alice with an open session on each of two files and an ended one. *)
Definition editing_store : db :=
  mk_db [alice] [a_py; b_md]
    [ mk_file_session 1 1 1 100 500 None None None false 0;
      mk_file_session 2 1 2 100 900 None None None false 0;
      mk_file_session 3 1 1 100 950 (Some 960) None None false 0;
      mk_file_session 4 1 1 100 700 None None None false 1 ]
    [] [].

(** A rendering of days for the sample rows: the day turns at 1000. *)
Definition sample_day (t : timestamp) : string :=
  if t <? 1000 then "1/1/1970" else "1/2/1970".

(** Four ended sessions of alice, started at 100, 1500, 200 and 300; all
    but the third get a comment. *)
Definition ended_session (id : uuid) (started : timestamp) : file_session :=
  mk_file_session id 1 1 started (started + 50) (Some (started + 60)) None None false 0.

Definition timeline_run : list stmt :=
  [ InsertUser alice; InsertFile a_py;
    InsertSession (ended_session 1 100); InsertSession (ended_session 2 1500);
    InsertSession (ended_session 3 200); InsertSession (ended_session 4 300);
    InsertComment (mk_comment 1 1 1 "fixed bug" "bugfix" (Some 2000));
    InsertComment (mk_comment 2 2 1 "new page" "feature" (Some 2001));
    InsertComment (mk_comment 4 4 1 "typo" "docs" (Some 2002)) ].

Definition timeline_store : db :=
  mk_db [alice] [a_py]
    [ set_is_commented true (ended_session 1 100);
      set_is_commented true (ended_session 2 1500);
      ended_session 3 200;
      set_is_commented true (ended_session 4 300) ]
    []
    [ mk_comment 1 1 1 "fixed bug" "bugfix" (Some 2000);
      mk_comment 2 2 1 "new page" "feature" (Some 2001);
      mk_comment 4 4 1 "typo" "docs" (Some 2002) ].

(** The change types of the specification's example. *)
Definition sample_change_types : list string :=
  ["bugfix"; "feature"; "refactor"; "docs"; "other"].

(** ** The view of open sessions *)

(** The row type of the view [active_sessions]. *)
Record active_session := mk_active_session {
  as_id : uuid;
  as_user_id : uuid;
  as_file_id : uuid;
  as_started_at : timestamp;
  as_last_activity : timestamp;
  as_hash_before : option string;
  as_hash_after : option string;
  as_resume_count : Z;
  as_username : string;
  as_file_path : string;
  as_file_name : string
}.

Definition active_session_row (row : file_session * user * file) : active_session :=
  let '(fs, u, f) := row in
  mk_active_session (fs_id fs) (fs_user_id fs) (fs_file_id fs) (fs_started_at fs)
    (fs_last_activity fs) (fs_hash_before fs) (fs_hash_after fs)
    (fs_resume_count fs) (u_username u) (f_file_path f) (f_file_name f).

(** [CREATE VIEW active_sessions ... WHERE fs.ended_at IS NULL].  The view
    has no ORDER BY: the engine returns its rows in an order of its own
    choosing, of which the list here is one. *)
Definition active_sessions (st : db) : list active_session :=
  map active_session_row
    (filter (fun row => let '(fs, _, _) := row in is_null (fs_ended_at fs))
       (joined st)).

(** The time before which an open session is stale for [close_old_sessions]. *)
Definition cutoff (now : timestamp) (max_age_hours : Z) : timestamp :=
  now - hours max_age_hours.

(** bob reviews: he has commented alice's session 1, and alice his session 2. *)
Definition bob : user := mk_user 2 "bob" (Some "bob@example.com") (Some 0).

Definition bobs_session (id : uuid) : file_session :=
  mk_file_session id 2 1 200 400 (Some 450) None None false 0.

Definition review_run : list stmt :=
  [ InsertUser alice; InsertUser bob; InsertFile a_py;
    InsertSession (closed_session 1); InsertSession (bobs_session 2);
    InsertComment (mk_comment 1 1 2 "looks fine" "other" (Some 900));
    InsertComment (mk_comment 2 2 1 "needs tests" "other" (Some 901)) ].

Definition review_store : db :=
  mk_db [alice; bob] [a_py]
    [ set_is_commented true (closed_session 1);
      set_is_commented true (bobs_session 2) ]
    []
    [ mk_comment 1 1 2 "looks fine" "other" (Some 900);
      mk_comment 2 2 1 "needs tests" "other" (Some 901) ].

(** ** Objects

    The own properties of a JavaScript object, in the order they were first
    set.  (A property whose name is an array index is enumerated ahead of
    the others by the engine; nothing below depends on the order.) *)
Definition object (V : Type) : Type := list (string * V).

(** [o[k]]; [None] is [undefined]. *)
Fixpoint get_property {V} (k : string) (o : object V) : option V :=
  match o with
  | [] => None
  | (k', v) :: o' => if String.eqb k' k then Some v else get_property k o'
  end.

(** [o[k] = v] *)
Fixpoint set_property {V} (k : string) (v : V) (o : object V) : object V :=
  match o with
  | [] => [(k, v)]
  | (k', v') :: o' =>
      if String.eqb k' k then (k', v) :: o' else (k', v') :: set_property k v o'
  end.

(** [{...target, ...source}]: each own property of [source] is set on a copy
    of [target], in order. *)
Definition spread {V} (target source : object V) : object V :=
  fold_left (fun t kv => set_property (fst kv) (snd kv) t) source target.

(** ** [api.js] *)

Inductive json_value :=
| json_string (s : string)
| json_id (id : uuid).

(** What [fetchAPI] hands to [fetch]: the URL and the options object, whose
    [body] is kept as the object that [JSON.stringify] serialises. *)
Record api_request := mk_api_request {
  rq_url : string;
  rq_method : string;
  rq_headers : object string;
  rq_body : option (object json_value)
}.

(** An async function returns a value or throws. *)
Inductive outcome (J : Type) :=
| returned (value : J)
| thrown (error : string).
Arguments returned {J} value.
Arguments thrown {J} error.

(** A response: [rs_status] is an unsigned short; [rs_json] is what
    [response.json()] settles to, the parsed body ([None] for the JSON
    [null]) or the error of a body that is not JSON. *)
Record response (J : Type) := mk_response {
  rs_ok : bool;
  rs_status : N;
  rs_statusText : string;
  rs_json : outcome (option J)
}.
Arguments mk_response {J} _ _ _ _.
Arguments rs_ok {J} _.
Arguments rs_status {J} _.
Arguments rs_statusText {J} _.
Arguments rs_json {J} _.

(** A call of [fetch] resolves with a response or rejects. *)
Inductive fetched (J : Type) :=
| resolved (r : response J)
| rejected (error : string).
Arguments resolved {J} r.
Arguments rejected {J} error.

Definition API_BASE : string := "http://localhost:8000/api".

(** [fetchAPI(endpoint, method, body)]: [username] is
    [localStorage.getItem('username')], [fetch] the network.  The result is
    the requests sent and what the call returns or throws. *)
Definition fetchAPI {J} (username : option string) (fetch : api_request -> fetched J)
  (endpoint method : string) (body : option (object json_value))
  : list api_request * outcome (option J) :=
  match username with
  | None | Some EmptyString => ([], thrown "No username found. Please login.")
  | Some username =>
      let request :=
        mk_api_request (API_BASE ++ endpoint) method
          [("Content-Type", "application/json")]
          (option_map
             (fun body => set_property "username" (json_string username) (spread [] body))
             body) in
      ([request],
       match fetch request with
       | rejected error => thrown error
       | resolved response =>
           if rs_ok response then rs_json response
           else thrown ("API error: " ++ rs_statusText response)
       end)
  end.

Definition getUserSessions {J} username (fetch : api_request -> fetched J) :=
  fetchAPI username fetch "/sessions" "GET" None.

(** [`/user-activity/${localStorage.getItem('username')}`] *)
Definition getUserHistory {J} username (fetch : api_request -> fetched J) :=
  fetchAPI username fetch
    ("/user-activity/" ++ match username with Some u => u | None => "null" end)
    "GET" None.

Definition getAllChanges {J} username (fetch : api_request -> fetched J) :=
  fetchAPI username fetch "/sessions/comments" "GET" None.

Definition getChangeTypes {J} username (fetch : api_request -> fetched J) :=
  fetchAPI username fetch "/change-types" "GET" None.

Definition api_postComment {J} username (fetch : api_request -> fetched J)
  (sessionId : uuid) (content changeType : string) :=
  fetchAPI username fetch "/comments" "POST"
    (Some [("session_id", json_id sessionId);
           ("content", json_string content);
           ("change_type", json_string changeType)]).

(** ** [apiRequest] and [refreshUserData] *)

(** The values of a [fetch] options object: a string or an object of
    strings (the headers). *)
Inductive init_value :=
| init_string (s : string)
| init_object (o : object string).

(** The own properties of a string: its characters under their indices. *)
Fixpoint string_entries (i : nat) (s : string) : object string :=
  match s with
  | EmptyString => []
  | String c s' =>
      (NilZero.string_of_uint (Nat.to_uint i), String c EmptyString)
      :: string_entries (S i) s'
  end.

(** [{'Content-Type': 'application/json', ...options.headers}] *)
Definition merged_headers (options : object init_value) : object string :=
  spread [("Content-Type", "application/json")]
    (match get_property "headers" options with
     | None => []
     | Some (init_object o) => o
     | Some (init_string s) => string_entries 0 s
     end).

(** [{headers: {...}, ...options}], the second argument of [fetch]. *)
Definition apiRequest_init (options : object init_value) : object init_value :=
  spread [("headers", init_object (merged_headers options))] options.

(** [`${response.status}`], the decimal digits of an unsigned short. *)
Definition status_text (code : N) : string :=
  NilZero.string_of_uint (N.to_uint code).

(** [apiRequest(endpoint, options)]: the call of [fetch], what is returned or
    thrown, and the lines written with [console.error].  Everything is
    inside the [try]: a rejection of [fetch] or of [response.json()] is
    logged and thrown again like the error of a status that is not ok. *)
Definition apiRequest {J}
  (fetch : string -> object init_value -> fetched J)
  (endpoint : string) (options : object init_value)
  : (string * object init_value) * outcome (option J) * list string :=
  let call := (endpoint, apiRequest_init options) in
  match fetch endpoint (apiRequest_init options) with
  | rejected error => (call, thrown error, ["API request failed:"])
  | resolved response =>
      if rs_ok response then
        match rs_json response with
        | returned data => (call, returned data, [])
        | thrown error => (call, thrown error, ["API request failed:"])
        end
      else (call, thrown ("API error: " ++ status_text (rs_status response)),
            ["API request failed:"])
  end.

(** [refreshUserData(username)]: what is returned, [None] being [null], and
    the toasts shown.  A body that is the JSON [null] is returned as it is,
    with no toast. *)
Definition refreshUserData {J}
  (fetch : string -> object init_value -> fetched J) (username : string)
  : option J * list string :=
  match apiRequest fetch ("/api/user-sessions/" ++ username) [] with
  | (_, returned data, _) => (data, [])
  | (_, thrown _, _) => (None, ["Failed to refresh data"])
  end.


(** * Proofs *)

(** ** One-pass UPDATE *)

Lemma sql_update_rows {A} (w : A -> bool) (s : A -> A) (t : list A) :
  fst (sql_update w s t) = map (fun r => if w r then s r else r) t.
Proof.
  induction t as [|r t IH]; simpl; [reflexivity|].
  destruct (sql_update w s t) as [rows n]; simpl in *.
  destruct (w r); simpl; now rewrite IH.
Qed.

Lemma sql_update_count {A} (w : A -> bool) (s : A -> A) (t : list A) :
  snd (sql_update w s t) = Z.of_nat (List.length (filter w t)).
Proof.
  induction t as [|r t IH]; simpl; [reflexivity|].
  destruct (sql_update w s t) as [rows n]; simpl in *.
  destruct (w r); simpl; lia.
Qed.

Lemma Forall2_map_self {A} (P : A -> A -> Prop) (f : A -> A) (l : list A) :
  (forall x, In x l -> P x (f x)) -> Forall2 P l (map f l).
Proof.
  induction l as [|x l IH]; intros H; simpl; constructor.
  - apply H; now left.
  - apply IH; intros y Hy; apply H; now right.
Qed.

Lemma close_old_sessions_rows now h st :
  file_sessions (fst (close_old_sessions now h st)) =
  map (fun fs => if stale now h fs then end_at_last_activity fs else fs)
    (file_sessions st).
Proof.
  pose proof (sql_update_rows (stale now h) end_at_last_activity (file_sessions st)) as H.
  unfold close_old_sessions.
  destruct (sql_update _ _ _); simpl in *. exact H.
Qed.

Lemma close_old_sessions_count now h st :
  snd (close_old_sessions now h st) =
  Z.of_nat (List.length (filter (stale now h) (file_sessions st))).
Proof.
  pose proof (sql_update_count (stale now h) end_at_last_activity (file_sessions st)) as H.
  unfold close_old_sessions.
  destruct (sql_update _ _ _); simpl in *. exact H.
Qed.

Lemma stale_iff now h fs :
  stale now h fs = true <->
  fs_ended_at fs = None /\ fs_last_activity fs < now - h * 3600000000.
Proof.
  unfold stale, hours, is_null.
  rewrite andb_true_iff, Z.ltb_lt.
  destruct (fs_ended_at fs); intuition congruence.
Qed.

Lemma reclaimed_stale now h (l : list file_session) :
  filter reclaimed
    (combine l (map (fun fs => if stale now h fs then end_at_last_activity fs else fs) l))
  = map (fun fs => (fs, end_at_last_activity fs)) (filter (stale now h) l).
Proof.
  induction l as [|fs l IH]; simpl; [reflexivity|].
  unfold reclaimed at 1; simpl.
  destruct (stale now h fs) eqn:E; simpl.
  - apply stale_iff in E as [E _]. unfold open; rewrite E; simpl.
    now rewrite IH.
  - unfold open. destruct (is_null (fs_ended_at fs)); simpl; apply IH.
Qed.

(** The UPDATE of [close_old_sessions], row by row. *)
Lemma update_closes_stale :
  forall (now : timestamp) (max_age_hours : Z) (st : db),
    let st' := fst (close_old_sessions now max_age_hours st) in
    let closed_count := snd (close_old_sessions now max_age_hours st) in
    (file_sessions st', closed_count) =
      sql_update (stale now max_age_hours) end_at_last_activity (file_sessions st)
    /\ Forall2 (fun fs fs' =>
         (reclaimed (fs, fs') = true <->
            fs_ended_at fs = None /\
            fs_last_activity fs < now - max_age_hours * 3600000000)
         /\ (reclaimed (fs, fs') = true ->
               fs_ended_at fs' = Some (fs_last_activity fs))
         /\ (reclaimed (fs, fs') = false -> fs' = fs))
       (file_sessions st) (file_sessions st')
    /\ closed_count =
       Z.of_nat (List.length (filter reclaimed
                           (combine (file_sessions st) (file_sessions st')))).
Proof.
  intros now h st st' n. subst st' n.
  split; [|split].
  - unfold close_old_sessions. now destruct (sql_update _ _ _).
  - rewrite close_old_sessions_rows.
    apply Forall2_map_self. intros fs _.
    unfold reclaimed; simpl.
    destruct (stale now h fs) eqn:E.
    + pose proof (proj1 (stale_iff now h fs) E) as [E1 E2].
      unfold open, end_at_last_activity; simpl. rewrite E1; simpl.
      repeat split; auto; discriminate.
    + assert (N : ~ (fs_ended_at fs = None /\
                     fs_last_activity fs < now - h * 3600000000)).
      { intros K. apply stale_iff in K. congruence. }
      unfold open. destruct (is_null (fs_ended_at fs)); simpl;
        repeat split; auto; try discriminate; intros; tauto.
  - rewrite close_old_sessions_count, close_old_sessions_rows, reclaimed_stale.
    now rewrite List.length_map.
Qed.


(** ** Reclaiming with a zero threshold *)

(** alice, a.py and one open session whose last heartbeat is at 1000. *)
Lemma fresh_session_reachable :
  reachable (mk_db [alice] [a_py] [session_at 1 1000] [] []).
Proof.
  eapply reachable_exec with (s := InsertSession (session_at 1 1000)).
  eapply reachable_exec with (s := InsertFile a_py).
  eapply reachable_exec with (s := InsertUser alice).
  apply reachable_empty.
  all: reflexivity.
Qed.

Lemma call_in_range now h st :
  IS_VALID_TIMESTAMP (now - h * 3600000000) = true ->
  call_close_old_sessions now h st = Ok (close_old_sessions now h st).
Proof. unfold call_close_old_sessions, hours. now intros ->. Qed.

Lemma call_returns now h st st' n :
  call_close_old_sessions now h st = Ok (st', n) ->
  IS_VALID_TIMESTAMP (now - h * 3600000000) = true
  /\ close_old_sessions now h st = (st', n).
Proof.
  unfold call_close_old_sessions, hours.
  destruct (IS_VALID_TIMESTAMP _); [|discriminate].
  intros E. injection E as E. auto.
Qed.

Lemma IS_VALID_TIMESTAMP_iff t :
  IS_VALID_TIMESTAMP t = true <-> MIN_TIMESTAMP <= t < END_TIMESTAMP.
Proof. unfold IS_VALID_TIMESTAMP. rewrite andb_true_iff, Z.leb_le, Z.ltb_lt. tauto. Qed.

(** C3, as stated, fails: not for every [max_age_hours].  Called in October
    2026 with the largest INTEGER, the function raises and returns no count;
    the open session of the store is left as it is. *)
Lemma close_old_sessions_raises_on_large_age :
  let st := mk_db [alice] [a_py] [session_at 1 1000] [] [] in
  reachable st
  /\ map open (file_sessions st) = [true]
  /\ call_close_old_sessions 846000000000000 2147483647 st
     = Err datetime_field_overflow.
Proof.
  split; [exact fresh_session_reachable|]. split; reflexivity.
Qed.

(** C3, amended. For every [max_age_hours] such that [now - max_age_hours]
    hours is in the range of timestamps, [close_old_sessions] returns, and
    is one conditional UPDATE of [file_sessions]: row by row, a session is
    closed by the call exactly when its [ended_at] was NULL and its
    [last_activity] is before [now - max_age_hours] hours; a closed session
    gets its own [last_activity] as [ended_at]; every other row is left as
    it was; the integer returned is the number of sessions the call closed.
    For any other [max_age_hours] the call raises SQLSTATE 22008 and returns
    nothing. *)
Theorem close_old_sessions_closes_stale_in_range :
  forall (now : timestamp) (max_age_hours : Z) (st : db),
    (MIN_TIMESTAMP <= now - max_age_hours * 3600000000 < END_TIMESTAMP ->
     exists st' closed_count,
       call_close_old_sessions now max_age_hours st = Ok (st', closed_count)
       /\ (file_sessions st', closed_count) =
            sql_update (stale now max_age_hours) end_at_last_activity (file_sessions st)
       /\ Forall2 (fun fs fs' =>
            (reclaimed (fs, fs') = true <->
               fs_ended_at fs = None /\
               fs_last_activity fs < now - max_age_hours * 3600000000)
            /\ (reclaimed (fs, fs') = true ->
                  fs_ended_at fs' = Some (fs_last_activity fs))
            /\ (reclaimed (fs, fs') = false -> fs' = fs))
          (file_sessions st) (file_sessions st')
       /\ closed_count =
          Z.of_nat (List.length (filter reclaimed
                              (combine (file_sessions st) (file_sessions st')))))
    /\ (~ (MIN_TIMESTAMP <= now - max_age_hours * 3600000000 < END_TIMESTAMP) ->
        call_close_old_sessions now max_age_hours st = Err datetime_field_overflow).
Proof.
  intros now h st. split.
  - intros V. apply IS_VALID_TIMESTAMP_iff in V.
    exists (fst (close_old_sessions now h st)), (snd (close_old_sessions now h st)).
    split.
    + rewrite (call_in_range now h st V). now destruct (close_old_sessions now h st).
    + exact (update_closes_stale now h st).
  - intros V. unfold call_close_old_sessions, hours.
    destruct (IS_VALID_TIMESTAMP _) eqn:E; [|reflexivity].
    apply IS_VALID_TIMESTAMP_iff in E. contradiction.
Qed.

(** C4, as stated, fails: called at time 1000 with [max_age_hours = 0], the
    function leaves open the session whose [last_activity] is 1000, and
    reports zero sessions closed. *)
Lemma close_old_sessions_zero_keeps_session_of_now :
  let st := mk_db [alice] [a_py] [session_at 1 1000] [] [] in
  reachable st
  /\ map open (file_sessions st) = [true]
  /\ close_old_sessions 1000 0 st = (st, 0).
Proof.
  split; [exact fresh_session_reachable|]. split; reflexivity.
Qed.

(** C4, amended. [close_old_sessions] with [max_age_hours = 0] closes every
    open session whose [last_activity] is strictly before the time of the
    call, giving it its own [last_activity] as [ended_at]; an open session
    whose [last_activity] is at or after the time of the call stays as it
    is, and so does every ended session. *)
Theorem close_old_sessions_zero :
  forall (now : timestamp) (st : db),
    Forall2 (fun fs fs' =>
         (open fs = true -> fs_last_activity fs < now ->
            fs' = end_at_last_activity fs
            /\ fs_ended_at fs' = Some (fs_last_activity fs))
         /\ (open fs = true -> now <= fs_last_activity fs -> fs' = fs)
         /\ (open fs = false -> fs' = fs))
      (file_sessions st) (file_sessions (fst (close_old_sessions now 0 st))).
Proof.
  intros now st.
  rewrite close_old_sessions_rows.
  apply Forall2_map_self. intros fs _.
  unfold stale, hours, open.
  replace (now - 0 * 3600000000) with now by lia.
  destruct (is_null (fs_ended_at fs)); simpl.
  - destruct (Z.ltb_spec (fs_last_activity fs) now);
      repeat split; intros; auto; try lia; discriminate.
  - repeat split; intros; auto; discriminate.
Qed.

(** ** What reclaiming leaves alone *)

(** C10. [close_old_sessions] changes nothing but [ended_at]: each session
    keeps its id, user, file, [started_at], [last_activity], [hash_before],
    [hash_after], [resume_count] and [is_commented]; a session that does not
    match the staleness condition is unchanged; the tables [users], [files]
    and [comments] are unchanged, and so is [file_events]: no event is
    recorded for a reclaimed session. *)
Theorem close_old_sessions_frame :
  forall (now : timestamp) (max_age_hours : Z) (st : db),
    let st' := fst (close_old_sessions now max_age_hours st) in
    file_events st' = file_events st
    /\ users st' = users st
    /\ files st' = files st
    /\ comments st' = comments st
    /\ Forall2 (fun fs fs' =>
         fs' = set_ended_at (fs_ended_at fs') fs
         /\ fs_id fs' = fs_id fs
         /\ fs_user_id fs' = fs_user_id fs
         /\ fs_file_id fs' = fs_file_id fs
         /\ fs_started_at fs' = fs_started_at fs
         /\ fs_last_activity fs' = fs_last_activity fs
         /\ fs_hash_before fs' = fs_hash_before fs
         /\ fs_hash_after fs' = fs_hash_after fs
         /\ fs_resume_count fs' = fs_resume_count fs
         /\ fs_is_commented fs' = fs_is_commented fs
         /\ (stale now max_age_hours fs = false -> fs' = fs))
       (file_sessions st) (file_sessions st').
Proof.
  intros now h st st'. subst st'.
  repeat split;
    try (unfold close_old_sessions; destruct (sql_update _ _ _); reflexivity).
  rewrite close_old_sessions_rows.
  apply Forall2_map_self. intros fs _.
  destruct (stale now h fs); destruct fs; simpl;
    repeat split; auto; discriminate.
Qed.

(** ** Keys and references under the statements *)

Section Keys.

Context {A K : Type}.
Variable eqb : K -> K -> bool.
Hypothesis eqb_eq : forall a b, eqb a b = true <-> a = b.
Variable key : A -> K.

Lemma existsb_key k l :
  existsb (fun x => eqb (key x) k) l = true <-> In k (map key l).
Proof.
  rewrite existsb_exists, in_map_iff.
  split; intros [x [H1 H2]]; exists x.
  - apply eqb_eq in H2. auto.
  - split; [assumption|]. now apply eqb_eq.
Qed.

Lemma fresh_key k l :
  negb (existsb (fun x => eqb (key x) k) l) = true -> ~ In k (map key l).
Proof.
  rewrite negb_true_iff. intros H K0.
  apply existsb_key in K0. congruence.
Qed.

Lemma NoDup_key_snoc x l :
  NoDup (map key l) -> ~ In (key x) (map key l) -> NoDup (map key (l ++ [x])).
Proof.
  intros H N. rewrite map_app. simpl.
  apply NoDup_app; [assumption | repeat constructor; auto |].
  intros a Ha [<-|[]]. contradiction.
Qed.

Lemma NoDup_key_filter (p : A -> bool) l :
  NoDup (map key l) -> NoDup (map key (filter p l)).
Proof.
  induction l as [|x l IH]; simpl; intros H; [constructor|].
  inversion H as [|? ? N H']; subst.
  destruct (p x); simpl; auto.
  constructor; auto.
  intros I. apply N. apply in_map_iff in I as [y [E I]].
  apply filter_In in I as [I _]. rewrite <- E. now apply in_map.
Qed.

Lemma NoDup_key_inj a b l :
  NoDup (map key l) -> In a l -> In b l -> key a = key b -> a = b.
Proof.
  induction l as [|x l IH]; simpl; intros H Ia Ib E; [contradiction|].
  inversion H as [|? ? N H']; subst.
  destruct Ia as [->|Ia], Ib as [->|Ib]; auto.
  - exfalso. apply N. rewrite E. now apply in_map.
  - exfalso. apply N. rewrite <- E. now apply in_map.
Qed.

Lemma in_key_filter (p : A -> bool) k l :
  In k (map key (filter p l)) -> In k (map key l).
Proof.
  intros I. apply in_map_iff in I as [y [E I]].
  apply filter_In in I as [I _]. rewrite <- E. now apply in_map.
Qed.

Lemma in_key_filter_neq k0 k l :
  In k (map key l) -> k <> k0 ->
  In k (map key (filter (fun x => negb (eqb (key x) k0)) l)).
Proof.
  intros I N. apply in_map_iff in I as [y [E I]].
  apply in_map_iff. exists y. split; [assumption|].
  apply filter_In. split; [assumption|].
  apply negb_true_iff. destruct (eqb (key y) k0) eqn:Q; [|reflexivity].
  apply eqb_eq in Q. congruence.
Qed.

Lemma map_key_update (w : A -> bool) (s : A -> A) l :
  (forall x, key (s x) = key x) ->
  map key (fst (sql_update w s l)) = map key l.
Proof.
  intros H. rewrite sql_update_rows, map_map.
  apply map_ext. intros x. destruct (w x); auto.
Qed.

End Keys.

Lemma map_unchanged {A} (f : A -> A) (l : list A) :
  (forall x, In x l -> f x = x) -> map f l = l.
Proof.
  induction l as [|x l IH]; simpl; intros H; [reflexivity|].
  rewrite (H x) by now left. f_equal. apply IH. intros y I. apply H. now right.
Qed.

Lemma incl_snoc_l {K} (l : list K) (x : K) (m : list K) :
  incl l m -> In x m -> incl (l ++ [x]) m.
Proof.
  intros H I a Ha. apply in_app_or in Ha as [Ha|[<-|[]]]; auto.
Qed.

Lemma incl_snoc_r {K} (l m : list K) (x : K) :
  incl l m -> incl l (m ++ [x]).
Proof. intros H a Ha. apply in_or_app. left. auto. Qed.

(** ** The trigger and the flag *)

Lemma trigger_rows op c t :
  update_session_commented_flag op c t =
  map (fun fs =>
         if N.eqb (fs_id fs) (c_session_id c)
         then set_is_commented (match op with TG_INSERT => true | TG_DELETE => false end) fs
         else fs) t.
Proof. destruct op; simpl; apply sql_update_rows. Qed.

Lemma trigger_delete_rows gone t :
  fold_left (fun t c => update_session_commented_flag TG_DELETE c t) gone t =
  map (fun fs =>
         if existsb (fun c => N.eqb (c_session_id c) (fs_id fs)) gone
         then set_is_commented false fs
         else fs) t.
Proof.
  revert t. induction gone as [|c gone IH]; intros t; cbn [fold_left existsb].
  - symmetry. apply map_id.
  - rewrite IH, trigger_rows, map_map. apply map_ext. intros fs.
    rewrite (N.eqb_sym (c_session_id c)).
    destruct (N.eqb (fs_id fs) (c_session_id c)); simpl; [|reflexivity].
    now destruct (existsb _ gone).
Qed.

Lemma trigger_keeps {K} (key : file_session -> K) op c t :
  (forall v fs, key (set_is_commented v fs) = key fs) ->
  map key (update_session_commented_flag op c t) = map key t.
Proof.
  intros H. rewrite trigger_rows, map_map. apply map_ext.
  intros fs. destruct (N.eqb _ _); auto.
Qed.

Lemma delete_comments_rows p st :
  file_sessions (delete_comments_where p st) =
  map (fun fs =>
         if existsb (fun c => N.eqb (c_session_id c) (fs_id fs)) (filter p (comments st))
         then set_is_commented false fs
         else fs) (file_sessions st).
Proof. unfold delete_comments_where. cbn [file_sessions with_file_sessions]. apply trigger_delete_rows. Qed.

Lemma delete_comments_keeps {K} (key : file_session -> K) p st :
  (forall v fs, key (set_is_commented v fs) = key fs) ->
  map key (file_sessions (delete_comments_where p st)) = map key (file_sessions st).
Proof.
  intros H. rewrite delete_comments_rows, map_map. apply map_ext.
  intros fs. destruct (existsb _ _); auto.
Qed.

(** The flag agrees with the table after an insert into [comments]. *)
Lemma flag_after_insert c (S : list file_session) (C : list comment) :
  Forall (fun fs => fs_is_commented fs = true <-> In (fs_id fs) (map c_session_id C)) S ->
  Forall (fun fs => fs_is_commented fs = true <-> In (fs_id fs) (map c_session_id (C ++ [c])))
    (update_session_commented_flag TG_INSERT c S).
Proof.
  intros H. rewrite trigger_rows. apply Forall_map.
  eapply Forall_impl; [|exact H]. intros fs [H1 H2].
  rewrite map_app, in_app_iff. simpl.
  destruct (N.eqb_spec (fs_id fs) (c_session_id c)) as [E|E]; simpl.
  - split; [intros _; right; left; congruence | reflexivity].
  - split; [auto|]. intros [I|[I|[]]]; [auto | congruence].
Qed.

(** The flag agrees with the table after a delete from [comments]. *)
Lemma flag_after_delete p (S : list file_session) (C : list comment) :
  NoDup (map c_session_id C) ->
  Forall (fun fs => fs_is_commented fs = true <-> In (fs_id fs) (map c_session_id C)) S ->
  Forall (fun fs => fs_is_commented fs = true <->
                    In (fs_id fs) (map c_session_id (filter (fun c => negb (p c)) C)))
    (map (fun fs =>
            if existsb (fun c => N.eqb (c_session_id c) (fs_id fs)) (filter p C)
            then set_is_commented false fs
            else fs) S).
Proof.
  intros ND H. apply Forall_map.
  eapply Forall_impl; [|exact H]. intros fs [H1 H2].
  destruct (existsb _ (filter p C)) eqn:X; simpl.
  - split; [discriminate|]. intros I. exfalso.
    apply existsb_exists in X as [c [Ic Ec]].
    apply filter_In in Ic as [Ic Pc]. apply N.eqb_eq in Ec.
    apply in_map_iff in I as [c' [Ec' Ic']].
    apply filter_In in Ic' as [Ic' Pc'].
    assert (c = c') by (eapply (NoDup_key_inj c_session_id); eauto; congruence).
    subst c'. rewrite Pc in Pc'. discriminate.
  - split.
    + intros F. apply H1 in F. apply in_map_iff in F as [c [Ec Ic]].
      apply in_map_iff. exists c. split; [assumption|].
      apply filter_In. split; [assumption|].
      destruct (p c) eqn:Pc; [|reflexivity]. exfalso.
      assert (existsb (fun c => N.eqb (c_session_id c) (fs_id fs)) (filter p C) = true).
      { apply existsb_exists. exists c. split.
        - apply filter_In. auto.
        - now apply N.eqb_eq. }
      congruence.
    + intros I. apply H2. eapply in_key_filter. exact I.
Qed.

(** ** Every statement keeps the store consistent *)

Lemma bind_check {B} b e (k : unit -> result B) r :
  bind (check b e) k = Ok r -> b = true /\ k tt = Ok r.
Proof. destruct b; simpl; [auto | discriminate]. Qed.

Ltac checks H :=
  repeat (apply bind_check in H;
          let C := fresh "C" in destruct H as [C H]);
  injection H as <-.

(** ** The assignment casts *)

Lemma clip_fits s : forall n, (characters (fst (clip n s)) <= n)%nat.
Proof.
  induction s as [|a s IH]; intros n; simpl; [lia|].
  destruct (continuation a) eqn:C.
  - specialize (IH n). destruct (clip n s) as [kept excess]. simpl in *.
    rewrite C. exact IH.
  - destruct n as [|n]; simpl; [lia|].
    specialize (IH n). destruct (clip n s) as [kept excess]. simpl in *.
    rewrite C. lia.
Qed.

Lemma clip_id s : forall n,
  (characters s <= n)%nat -> clip n s = (s, EmptyString).
Proof.
  induction s as [|a s IH]; intros n H; simpl in *; [reflexivity|].
  destruct (continuation a).
  - now rewrite IH.
  - destruct n as [|n]; [lia|]. rewrite IH by lia. reflexivity.
Qed.

Lemma varchar_cast_fits n column s s' :
  varchar_cast n column s = Ok s' -> varchar n s' = true.
Proof.
  unfold varchar_cast, varchar. pose proof (clip_fits s n) as F.
  destruct (clip n s) as [kept excess]. simpl in F.
  destruct (blanks excess); [|discriminate].
  intros E. injection E as <-. now apply Nat.leb_le.
Qed.

Lemma varchar_cast_id n column s :
  varchar n s = true -> varchar_cast n column s = Ok s.
Proof.
  unfold varchar_cast, varchar. intros H. apply Nat.leb_le in H.
  now rewrite (clip_id s n H).
Qed.

Lemma varchar_null_cast_fits n column s s' :
  varchar_null_cast n column s = Ok s' -> varchar_null n s' = true.
Proof.
  destruct s as [v|]; simpl.
  - destruct (varchar_cast n column v) as [v'|e] eqn:E; simpl; [|discriminate].
    intros Q. injection Q as <-. simpl. eapply varchar_cast_fits. exact E.
  - intros Q. now injection Q as <-.
Qed.

Lemma varchar_null_cast_id n column s :
  varchar_null n s = true -> varchar_null_cast n column s = Ok s.
Proof.
  destruct s as [v|]; simpl; [|reflexivity].
  intros H. now rewrite (varchar_cast_id n column v H).
Qed.

Lemma bind_ok {A B} (r : result A) (k : A -> result B) b :
  bind r k = Ok b -> exists a, r = Ok a /\ k a = Ok b.
Proof. destruct r as [a|e]; simpl; [eauto|discriminate]. Qed.

Lemma exec_inv s st st' :
  exec s st = Ok st' -> exists s', assign s = Ok s' /\ exec_assigned s' st = Ok st'.
Proof. apply bind_ok. Qed.

(** The casts leave [is_commented] alone. *)
Lemma assign_flag s s' :
  assign s = Ok s' -> leaves_flag_to_trigger s' = leaves_flag_to_trigger s.
Proof.
  destruct s; simpl; intros H;
    repeat (apply bind_ok in H; destruct H as (? & _ & H));
    now injection H as <-.
Qed.

(** A statement that is accepted on the values it carries is accepted as it
    is: the casts leave values of the column types as they are. *)
Lemma exec_of_assigned s st st' :
  exec_assigned s st = Ok st' -> exec s st = Ok st'.
Proof.
  intros H. unfold exec.
  assert (A : assign s = Ok s); [|now rewrite A].
  destruct s; simpl in *; try reflexivity.
  - unfold insert_user in H. apply bind_check in H as [C1 H].
    apply bind_check in H as [C2 _].
    rewrite (varchar_cast_id _ _ _ C1), (varchar_null_cast_id _ _ _ C2).
    now destruct u.
  - unfold insert_file in H. apply bind_check in H as [C1 H].
    apply bind_check in H as [C2 _].
    rewrite (varchar_cast_id _ _ _ C1), (varchar_cast_id _ _ _ C2).
    now destruct f.
  - unfold insert_session in H. apply bind_check in H as [C1 H].
    apply bind_check in H as [C2 _].
    rewrite (varchar_null_cast_id _ _ _ C1), (varchar_null_cast_id _ _ _ C2).
    now destruct r.
  - unfold update_session in H. apply bind_check in H as [C1 _].
    now rewrite (varchar_null_cast_id _ _ _ C1).
  - unfold insert_event in H. apply bind_check in H as [C1 H].
    apply bind_check in H as [C2 _].
    rewrite (varchar_cast_id _ _ _ C1), (varchar_null_cast_id _ _ _ C2).
    now destruct e.
  - unfold insert_comment in H. apply bind_check in H as [C1 _].
    rewrite (varchar_cast_id _ _ _ C1). now destruct c.
  - unfold update_comment in H. apply bind_check in H as [C1 _].
    now rewrite (varchar_cast_id _ _ _ C1).
Qed.

Lemma incl_map_snoc_r {A K} (key : A -> K) (l : list K) (m : list A) (x : A) :
  incl l (map key m) -> incl l (map key (m ++ [x])).
Proof. intros H. rewrite map_app. now apply incl_snoc_r. Qed.

Lemma incl_map_snoc_l {A K} (key : A -> K) (l : list A) (x : A) (m : list K) :
  incl (map key l) m -> In (key x) m -> incl (map key (l ++ [x])) m.
Proof. intros H I. rewrite map_app. now apply incl_snoc_l. Qed.

Lemma empty_consistent : consistent empty_db.
Proof. constructor; simpl; try constructor; intros x []. Qed.

Lemma insert_user_consistent u st st' :
  consistent st -> insert_user u st = Ok st' -> consistent st'.
Proof.
  intros [] H. unfold insert_user in H. checks H.
  constructor; simpl; auto.
  - apply NoDup_key_snoc; auto. eapply fresh_key; [apply N.eqb_eq | eassumption].
  - apply NoDup_key_snoc; auto. eapply fresh_key; [apply String.eqb_eq | eassumption].
  - now apply incl_map_snoc_r.
  - now apply incl_map_snoc_r.
Qed.

Lemma insert_file_consistent f st st' :
  consistent st -> insert_file f st = Ok st' -> consistent st'.
Proof.
  intros [] H. unfold insert_file in H. checks H.
  constructor; simpl; auto.
  - apply NoDup_key_snoc; auto. eapply fresh_key; [apply N.eqb_eq | eassumption].
  - apply NoDup_key_snoc; auto. eapply fresh_key; [apply String.eqb_eq | eassumption].
  - now apply incl_map_snoc_r.
Qed.

Lemma insert_session_consistent r st st' :
  consistent st -> insert_session r st = Ok st' -> consistent st'.
Proof.
  intros [] H. unfold insert_session in H. checks H.
  assert (F : ~ In (fs_id r) (map fs_id (file_sessions st))).
  { eapply fresh_key; [apply N.eqb_eq | eassumption]. }
  constructor; simpl; auto.
  - apply (NoDup_key_snoc fs_id r); auto.
  - apply (incl_map_snoc_l fs_user_id _ r); auto.
    eapply existsb_key; [apply N.eqb_eq | eassumption].
  - apply (incl_map_snoc_l fs_file_id _ r); auto.
    eapply existsb_key; [apply N.eqb_eq | eassumption].
  - now apply incl_map_snoc_r.
  - now apply incl_map_snoc_r.
Qed.

(** An UPDATE of [file_sessions] that assigns no key. *)
Lemma update_rows_consistent (w : file_session -> bool) (s : file_session -> file_session) st :
  (forall fs, fs_id (s fs) = fs_id fs) ->
  (forall fs, fs_user_id (s fs) = fs_user_id fs) ->
  (forall fs, fs_file_id (s fs) = fs_file_id fs) ->
  consistent st ->
  consistent (with_file_sessions (fst (sql_update w s (file_sessions st))) st).
Proof.
  intros K1 K2 K3 [].
  constructor; simpl; auto; rewrite ?map_key_update by assumption; auto.
Qed.

Lemma update_is_commented_consistent sid v st :
  consistent st -> consistent (update_is_commented sid v st).
Proof. now apply update_rows_consistent. Qed.

Lemma update_session_consistent sid la ea ha rc st st' :
  consistent st -> update_session sid la ea ha rc st = Ok st' -> consistent st'.
Proof.
  intros Hc H. unfold update_session in H. checks H.
  now apply update_rows_consistent.
Qed.

Lemma close_old_sessions_consistent now h st :
  consistent st -> consistent (fst (close_old_sessions now h st)).
Proof.
  intros Hc.
  pose proof (update_rows_consistent (stale now h) end_at_last_activity st) as H.
  unfold close_old_sessions.
  destruct (sql_update _ _ _); simpl in *. now apply H.
Qed.

Lemma insert_event_consistent e st st' :
  consistent st -> insert_event e st = Ok st' -> consistent st'.
Proof.
  intros [] H. unfold insert_event in H. checks H.
  constructor; simpl; auto.
  - apply NoDup_key_snoc; auto. eapply fresh_key; [apply N.eqb_eq | eassumption].
  - apply incl_map_snoc_l; auto.
    eapply existsb_key; [apply N.eqb_eq | eassumption].
Qed.

Lemma insert_comment_consistent c st st' :
  consistent st -> insert_comment c st = Ok st' -> consistent st'.
Proof.
  intros [] H. unfold insert_comment in H. checks H.
  constructor; cbn [users files file_sessions file_events comments
                    with_file_sessions with_comments];
    rewrite ?trigger_keeps, ?map_key_update by reflexivity; auto.
  - apply NoDup_key_snoc; auto. eapply fresh_key; [apply N.eqb_eq | eassumption].
  - apply NoDup_key_snoc; auto. eapply fresh_key; [apply N.eqb_eq | eassumption].
  - apply incl_map_snoc_l; auto.
    eapply existsb_key; [apply N.eqb_eq | eassumption].
  - apply incl_map_snoc_l; auto.
    eapply existsb_key; [apply N.eqb_eq | eassumption].
Qed.

(** The keys of a table after an UPDATE of the one row of id [k0] that gives
    it the key [k]: distinct as before when no other row has the key [k]. *)
Lemma NoDup_key_update_one {A} (id key : A -> N) (k0 k : N) (s : A -> A) l :
  (forall x, key (s x) = k) ->
  NoDup (map id l) ->
  NoDup (map key l) ->
  existsb (fun x => negb (N.eqb (id x) k0) && N.eqb (key x) k) l = false ->
  NoDup (map key (map (fun x => if N.eqb (id x) k0 then s x else x) l)).
Proof.
  intros Hs. induction l as [|x l IH]; simpl; intros Ni Nk X; [constructor|].
  inversion Ni as [|? ? Ni1 Ni2]; subst. inversion Nk as [|? ? Nk1 Nk2]; subst.
  apply orb_false_iff in X as [X1 X2].
  assert (Others : forall y, In y l -> N.eqb (id y) k0 = false -> key y <> k).
  { intros y I E Q. apply not_true_iff_false in X2. apply X2.
    apply existsb_exists. exists y. split; [assumption|].
    rewrite E. simpl. now apply N.eqb_eq. }
  destruct (N.eqb_spec (id x) k0) as [E|E].
  - rewrite map_unchanged.
    + constructor; [|assumption]. rewrite Hs. intros I.
      apply in_map_iff in I as [y [Ey Iy]].
      apply (Others y Iy); [|assumption].
      apply N.eqb_neq. intros Q. apply Ni1. rewrite E, <- Q. now apply in_map.
    + intros y Iy. destruct (N.eqb_spec (id y) k0) as [Q|Q]; [|reflexivity].
      exfalso. apply Ni1. rewrite E, <- Q. now apply in_map.
  - constructor; [|now apply IH].
    intros I. apply in_map_iff in I as [y' [Ey' Iy']].
    apply in_map_iff in Iy' as [y [Ey Iy]]. subst y'.
    destruct (N.eqb_spec (id y) k0) as [Q|Q].
    + rewrite Hs in Ey'. simpl in X1.
      apply N.eqb_neq in X1. congruence.
    + apply Nk1. rewrite <- Ey'. now apply in_map.
Qed.

Lemma update_comment_consistent cid sid content change_type st st' :
  consistent st -> update_comment cid sid content change_type st = Ok st' ->
  consistent st'.
Proof.
  intros Hc H. unfold update_comment in H.
  apply bind_check in H as [V H].
  destruct (existsb (fun c => N.eqb (c_id c) cid) (comments st));
    [|now injection H as <-].
  checks H. destruct Hc.
  constructor; cbn [users files file_sessions file_events comments with_comments];
    rewrite ?map_key_update by reflexivity; auto.
  - rewrite sql_update_rows.
    apply (NoDup_key_update_one c_id c_session_id cid sid
             (set_comment sid content change_type)); auto.
    now apply negb_true_iff.
  - rewrite sql_update_rows, map_map. intros k I.
    apply in_map_iff in I as [c [E I]].
    destruct (N.eqb (c_id c) cid); simpl in E; subst k.
    + eapply existsb_key; [apply N.eqb_eq | eassumption].
    + apply comments_session_id_fkey0. now apply in_map.
Qed.

Lemma incl_map_filter_l {A K} (key : A -> K) (p : A -> bool) l m :
  incl (map key l) m -> incl (map key (filter p l)) m.
Proof. intros H k I. apply H. eapply in_key_filter. exact I. Qed.

Lemma delete_comments_consistent p st :
  consistent st -> consistent (delete_comments_where p st).
Proof.
  intros [].
  constructor; rewrite ?delete_comments_keeps by reflexivity;
    unfold delete_comments_where;
    cbn [users files file_sessions file_events comments
         with_file_sessions with_comments]; auto.
  - now apply NoDup_key_filter.
  - now apply NoDup_key_filter.
  - now apply incl_map_filter_l.
  - now apply incl_map_filter_l.
Qed.

Lemma Forall_filter_keeps {A} (P : A -> Prop) (p : A -> bool) l :
  Forall P l -> Forall P (filter p l).
Proof.
  rewrite !Forall_forall. intros H x I. apply H.
  now apply filter_In in I.
Qed.

Lemma in_key_filter_kept {A} (key : A -> N) (p : A -> bool) k l :
  In k (map key l) ->
  existsb (fun x => N.eqb (key x) k) (filter p l) = false ->
  In k (map key (filter (fun x => negb (p x)) l)).
Proof.
  intros I X. apply in_map_iff in I as [x [E I]].
  apply in_map_iff. exists x. split; [assumption|].
  apply filter_In. split; [assumption|].
  destruct (p x) eqn:P; [|reflexivity]. exfalso.
  assert (existsb (fun x => N.eqb (key x) k) (filter p l) = true).
  { apply existsb_exists. exists x. split.
    - now apply filter_In.
    - now apply N.eqb_eq. }
  congruence.
Qed.

Lemma delete_sessions_consistent p st :
  consistent st -> consistent (delete_sessions_where p st).
Proof.
  intros [Uk Un Fk Fp Sk Ek Ck Cs SU SF ES CS CU].
  constructor; unfold delete_sessions_where;
    rewrite ?delete_comments_keeps by reflexivity;
    unfold delete_comments_where;
    cbn [users files file_sessions file_events comments
         with_file_sessions with_file_events with_comments]; auto.
  - now apply NoDup_key_filter.
  - now apply NoDup_key_filter.
  - now apply NoDup_key_filter.
  - now apply NoDup_key_filter.
  - now apply incl_map_filter_l.
  - now apply incl_map_filter_l.
  - intros k I. apply in_map_iff in I as [e [E I]].
    apply filter_In in I as [I X]. apply negb_true_iff in X. subst k.
    apply in_key_filter_kept; [|exact X].
    apply ES. now apply in_map.
  - intros k I. apply in_map_iff in I as [c [E I]].
    apply filter_In in I as [I X]. apply negb_true_iff in X. subst k.
    apply in_key_filter_kept; [|exact X].
    apply CS. now apply in_map.
  - now apply incl_map_filter_l.
Qed.

Lemma delete_session_consistent sid st :
  consistent st -> consistent (delete_session sid st).
Proof. apply delete_sessions_consistent. Qed.

Lemma delete_sessions_none {K} (key : file_session -> K) (eqb : K -> K -> bool) k p st :
  (forall v fs, key (set_is_commented v fs) = key fs) ->
  (forall fs, eqb (key fs) k = true -> p fs = true) ->
  existsb (fun fs => eqb (key fs) k)
    (file_sessions (delete_sessions_where p st)) = false.
Proof.
  intros Hk Hp.
  destruct (existsb _ _) eqn:X; [|reflexivity]. exfalso.
  apply existsb_exists in X as [fs [I E]].
  unfold delete_sessions_where in I. rewrite delete_comments_rows in I.
  cbn [file_sessions with_file_sessions with_file_events] in I.
  apply in_map_iff in I as [fs0 [E0 I]].
  apply filter_In in I as [_ N]. apply negb_true_iff in N.
  assert (key fs = key fs0) as Q
    by (rewrite <- E0; destruct (existsb _ _); [apply Hk|reflexivity]).
  rewrite Q in E. apply Hp in E. congruence.
Qed.

Lemma incl_map_filter_r {A B} (ka : A -> N) (kb : B -> N) k (la : list A) (lb : list B) :
  incl (map ka la) (map kb lb) ->
  existsb (fun a => N.eqb (ka a) k) la = false ->
  incl (map ka la) (map kb (filter (fun b => negb (N.eqb (kb b) k)) lb)).
Proof.
  intros H X j I. apply (in_key_filter_neq N.eqb N.eqb_eq kb k); [now apply H|].
  intros ->. apply (existsb_key N.eqb N.eqb_eq) in I. congruence.
Qed.

Lemma delete_user_consistent uid st :
  consistent st -> consistent (delete_user uid st).
Proof.
  intros Hc. unfold delete_user.
  set (st1 := delete_comments_where (fun c => N.eqb (c_user_id c) uid) st).
  set (st2 := delete_sessions_where (fun fs => N.eqb (fs_user_id fs) uid) st1).
  assert (H1 : consistent st1) by now apply delete_comments_consistent.
  assert (H2 : consistent st2) by now apply delete_sessions_consistent.
  assert (NoS : existsb (fun fs => N.eqb (fs_user_id fs) uid) (file_sessions st2) = false).
  { apply (delete_sessions_none fs_user_id N.eqb); auto. }
  assert (NoC : existsb (fun c => N.eqb (c_user_id c) uid) (comments st2) = false).
  { destruct (existsb (fun c => N.eqb (c_user_id c) uid) (comments st2)) eqn:X;
      [|reflexivity].
    exfalso. apply existsb_exists in X as [c [I E]].
    unfold st2, delete_sessions_where, delete_comments_where in I.
    cbn [comments with_file_sessions with_file_events with_comments] in I.
    apply filter_In in I as [I _].
    unfold st1, delete_comments_where in I.
    cbn [comments with_file_sessions with_comments] in I.
    apply filter_In in I as [_ N]. apply negb_true_iff in N. congruence. }
  destruct H2 as [Uk Un Fk Fp Sk Ek Ck Cs SU SF ES CS CU].
  constructor; cbn [users files file_sessions file_events comments with_users]; auto.
  - now apply NoDup_key_filter.
  - now apply NoDup_key_filter.
  - now apply incl_map_filter_r.
  - now apply incl_map_filter_r.
Qed.

Lemma delete_file_consistent fid st :
  consistent st -> consistent (delete_file fid st).
Proof.
  intros Hc. unfold delete_file.
  set (st1 := delete_sessions_where (fun fs => N.eqb (fs_file_id fs) fid) st).
  assert (H1 : consistent st1) by now apply delete_sessions_consistent.
  assert (NoS : existsb (fun fs => N.eqb (fs_file_id fs) fid) (file_sessions st1) = false).
  { apply (delete_sessions_none fs_file_id N.eqb); auto. }
  destruct H1 as [Uk Un Fk Fp Sk Ek Ck Cs SU SF ES CS CU].
  constructor; cbn [users files file_sessions file_events comments with_files]; auto.
  - now apply NoDup_key_filter.
  - now apply NoDup_key_filter.
  - now apply incl_map_filter_r.
Qed.

Lemma exec_close_old_sessions now h st st' :
  exec_assigned (CloseOldSessions now h) st = Ok st' ->
  st' = fst (close_old_sessions now h st).
Proof.
  unfold exec_assigned, call_close_old_sessions.
  destruct (IS_VALID_TIMESTAMP _); simpl; [|discriminate].
  now intros H; injection H as <-.
Qed.

Lemma exec_assigned_consistent s st st' :
  consistent st -> exec_assigned s st = Ok st' -> consistent st'.
Proof.
  intros Hc H. destruct s; simpl in H.
  - eapply insert_user_consistent; eassumption.
  - eapply insert_file_consistent; eassumption.
  - eapply insert_session_consistent; eassumption.
  - eapply update_session_consistent; eassumption.
  - injection H as <-. now apply update_is_commented_consistent.
  - eapply insert_event_consistent; eassumption.
  - eapply insert_comment_consistent; eassumption.
  - eapply update_comment_consistent; eassumption.
  - injection H as <-. now apply delete_comments_consistent.
  - injection H as <-. now apply delete_session_consistent.
  - injection H as <-. now apply delete_user_consistent.
  - injection H as <-. now apply delete_file_consistent.
  - apply exec_close_old_sessions in H as ->. now apply close_old_sessions_consistent.
Qed.

Lemma exec_consistent s st st' :
  consistent st -> exec s st = Ok st' -> consistent st'.
Proof.
  intros Hc H. apply exec_inv in H as (s' & _ & H).
  eapply exec_assigned_consistent; eassumption.
Qed.

Lemma reachable_consistent st : reachable st -> consistent st.
Proof.
  induction 1 as [|st s st' _ IH H].
  - exact empty_consistent.
  - eapply exec_consistent; eassumption.
Qed.

Lemma run_reachable l st st' :
  reachable st -> run l st = Ok st' -> reachable st'.
Proof.
  revert st. induction l as [|s l IH]; simpl; intros st R H.
  - now injection H as <-.
  - destruct (exec s st) as [st1|e] eqn:E; simpl in H; [|discriminate].
    eapply IH; [|exact H]. eapply reachable_exec; eassumption.
Qed.

(** ** Open sessions of a pair *)

(** C1, as stated, fails: after two inserts that the store accepts, alice
    has two open sessions on a.py. *)
Lemma two_open_sessions_for_one_pair :
  let st := mk_db [alice] [a_py] [session_at 1 1000; session_at 2 2000] [] [] in
  run [InsertUser alice; InsertFile a_py;
       InsertSession (session_at 1 1000); InsertSession (session_at 2 2000)]
    empty_db = Ok st
  /\ reachable st
  /\ open_sessions_of 1 1 st = [session_at 1 1000; session_at 2 2000].
Proof.
  split; [reflexivity|]. split; [|reflexivity].
  apply (run_reachable
           [InsertUser alice; InsertFile a_py;
            InsertSession (session_at 1 1000); InsertSession (session_at 2 2000)]
           empty_db); [apply reachable_empty|reflexivity].
Qed.

Lemma open_sessions_of_snoc uid fid r st :
  open_sessions_of uid fid
    (with_file_sessions (file_sessions st ++ [r]) st) =
  open_sessions_of uid fid st ++
  (if open r && N.eqb (fs_user_id r) uid && N.eqb (fs_file_id r) fid
   then [r] else []).
Proof.
  unfold open_sessions_of. simpl. rewrite filter_app. simpl.
  now destruct (open r && _ && _).
Qed.

(** C1, amended. In every reachable state the session ids are pairwise
    distinct (the primary key), and that is the only uniqueness the store
    keeps on [file_sessions]: [idx_file_sessions_active] is a plain partial
    index.  An insert whose id is new and whose user and file exist is
    accepted whether or not the pair already has an open session, and an
    open row adds one to the open sessions of its pair. *)
Theorem insert_session_ignores_open_sessions :
  forall (st : db) (r : file_session),
    reachable st ->
    varchar_null 64 (fs_hash_before r) = true ->
    varchar_null 64 (fs_hash_after r) = true ->
    ~ In (fs_id r) (map fs_id (file_sessions st)) ->
    In (fs_user_id r) (map u_id (users st)) ->
    In (fs_file_id r) (map f_id (files st)) ->
    NoDup (map fs_id (file_sessions st))
    /\ exists st',
         insert_session r st = Ok st'
         /\ reachable st'
         /\ NoDup (map fs_id (file_sessions st'))
         /\ forall uid fid,
              open_sessions_of uid fid st' =
              open_sessions_of uid fid st ++
              (if open r && N.eqb (fs_user_id r) uid && N.eqb (fs_file_id r) fid
               then [r] else []).
Proof.
  intros st r R Hb Ha Hid Hu Hf.
  assert (E : insert_session r st =
              Ok (with_file_sessions (file_sessions st ++ [r]) st)).
  { unfold insert_session. rewrite Hb, Ha. simpl.
    apply (existsb_key N.eqb N.eqb_eq) in Hu, Hf.
    destruct (existsb (fun x => N.eqb (fs_id x) (fs_id r)) (file_sessions st)) eqn:X.
    - apply (existsb_key N.eqb N.eqb_eq) in X. contradiction.
    - simpl. rewrite Hu, Hf. reflexivity. }
  assert (R' : reachable (with_file_sessions (file_sessions st ++ [r]) st)).
  { eapply reachable_exec with (s := InsertSession r); [eassumption|].
    now apply exec_of_assigned. }
  split; [apply reachable_consistent, R|].
  eexists. split; [exact E|]. split; [exact R'|].
  split; [apply (file_sessions_pkey _ (reachable_consistent _ R'))|].
  intros uid fid. apply (open_sessions_of_snoc uid fid r).
Qed.

Lemma insert_session_ignores_open_sessions_witness :
  let st := mk_db [alice] [a_py] [session_at 1 1000] [] [] in
  let r := session_at 2 2000 in
  reachable st
  /\ exists st',
       insert_session r st = Ok st'
       /\ open_sessions_of 1 1 st' = [session_at 1 1000; session_at 2 2000].
Proof.
  split; [exact fresh_session_reachable|].
  destruct (insert_session_ignores_open_sessions
              (mk_db [alice] [a_py] [session_at 1 1000] [] []) (session_at 2 2000)
              fresh_session_reachable eq_refl eq_refl) as [_ [st' [E [_ [_ O]]]]].
  - simpl. intros [H|[]]. discriminate.
  - simpl. now left.
  - simpl. now left.
  - exists st'. split; [exact E|]. rewrite O. reflexivity.
Defined.

(** ** The flag and the comment *)

Lemma closed_store_reachable : reachable closed_store.
Proof.
  apply (run_reachable
           [InsertUser alice; InsertFile a_py; InsertSession (closed_session 1)]
           empty_db); [apply reachable_empty|reflexivity].
Qed.

Lemma commented_store_reachable : reachable commented_store.
Proof.
  apply (run_reachable [InsertComment (fixed_bug 1 1)] closed_store);
    [apply closed_store_reachable|reflexivity].
Qed.

Lemma comments_of_nil_iff sid st :
  comments_of sid st = [] <-> ~ In sid (map c_session_id (comments st)).
Proof.
  unfold comments_of. split.
  - intros E I. apply in_map_iff in I as [c [Ec Ic]].
    assert (In c (filter (fun c => N.eqb (c_session_id c) sid) (comments st))) as F.
    { apply filter_In. split; [assumption|]. now apply N.eqb_eq. }
    rewrite E in F. exact F.
  - intros N.
    destruct (filter _ (comments st)) as [|c l] eqn:E; [reflexivity|].
    exfalso. apply N.
    assert (In c (filter (fun c => N.eqb (c_session_id c) sid) (comments st))) as F
      by (rewrite E; now left).
    apply filter_In in F as [F1 F2]. apply N.eqb_eq in F2.
    rewrite <- F2. now apply in_map.
Qed.

(** *** The flag under the statements that leave it to the trigger *)

Lemma update_rows_flag (w : file_session -> bool) (s : file_session -> file_session) st :
  (forall fs, fs_id (s fs) = fs_id fs) ->
  (forall fs, fs_is_commented (s fs) = fs_is_commented fs) ->
  flag_synced st ->
  flag_synced (with_file_sessions (fst (sql_update w s (file_sessions st))) st).
Proof.
  intros K1 K2 H. unfold flag_synced in *.
  cbn [file_sessions comments with_file_sessions].
  rewrite sql_update_rows. apply Forall_map.
  eapply Forall_impl; [|exact H]. intros fs Hfs. simpl in Hfs.
  destruct (w fs); [rewrite K1, K2|]; exact Hfs.
Qed.

Lemma delete_comments_flag p st :
  consistent st -> flag_synced st -> flag_synced (delete_comments_where p st).
Proof.
  intros Hc H. unfold flag_synced, delete_comments_where.
  cbn [file_sessions comments with_file_sessions with_comments].
  rewrite trigger_delete_rows. apply flag_after_delete; [|exact H].
  apply (comments_session_id_key _ Hc).
Qed.

Lemma delete_sessions_flag p st :
  consistent st -> flag_synced st -> flag_synced (delete_sessions_where p st).
Proof.
  intros Hc H. unfold flag_synced, delete_sessions_where, delete_comments_where.
  cbn [file_sessions file_events comments
       with_file_sessions with_file_events with_comments].
  rewrite trigger_delete_rows. apply flag_after_delete.
  - apply (comments_session_id_key _ Hc).
  - now apply Forall_filter_keeps.
Qed.

Lemma exec_assigned_flag_synced s st st' :
  consistent st -> flag_synced st ->
  leaves_flag_to_trigger s = true -> exec_assigned s st = Ok st' -> flag_synced st'.
Proof.
  intros Hc F L H. destruct s; simpl in H, L; try discriminate L.
  - unfold insert_user in H. checks H. exact F.
  - unfold insert_file in H. checks H. exact F.
  - unfold insert_session in H. checks H.
    unfold flag_synced. cbn [file_sessions comments with_file_sessions].
    apply Forall_app. split; [exact F|].
    constructor; [|constructor].
    apply negb_true_iff in L. rewrite L. split; [discriminate|].
    intros I. exfalso.
    apply (fresh_key N.eqb N.eqb_eq fs_id (fs_id r) (file_sessions st)); [assumption|].
    now apply (comments_session_id_fkey _ Hc).
  - unfold update_session in H. checks H. now apply update_rows_flag.
  - unfold insert_event in H. checks H. exact F.
  - unfold insert_comment in H. checks H.
    unfold flag_synced. cbn [file_sessions comments with_file_sessions with_comments].
    now apply (flag_after_insert c).
  - injection H as <-. now apply delete_comments_flag.
  - injection H as <-. now apply delete_sessions_flag.
  - injection H as <-. unfold delete_user.
    assert (H1 : flag_synced
                   (delete_sessions_where (fun fs => N.eqb (fs_user_id fs) uid)
                      (delete_comments_where (fun c => N.eqb (c_user_id c) uid) st))).
    { apply delete_sessions_flag.
      - now apply delete_comments_consistent.
      - now apply delete_comments_flag. }
    exact H1.
  - injection H as <-. unfold delete_file.
    assert (H1 : flag_synced
                   (delete_sessions_where (fun fs => N.eqb (fs_file_id fs) fid) st))
      by now apply delete_sessions_flag.
    exact H1.
  - apply exec_close_old_sessions in H as ->.
    pose proof (update_rows_flag (stale now max_age_hours) end_at_last_activity st) as U.
    unfold close_old_sessions. destruct (sql_update _ _ _); simpl in *.
    now apply U.
Qed.

Lemma exec_flag_synced s st st' :
  consistent st -> flag_synced st ->
  leaves_flag_to_trigger s = true -> exec s st = Ok st' -> flag_synced st'.
Proof.
  intros Hc F L H. apply exec_inv in H as (s' & A & H).
  apply (exec_assigned_flag_synced s' st st'); auto.
  now rewrite (assign_flag s s' A).
Qed.

Lemma run_flag_synced l : forall st st',
  consistent st -> flag_synced st ->
  forallb leaves_flag_to_trigger l = true -> run l st = Ok st' ->
  flag_synced st'.
Proof.
  induction l as [|s l IH]; simpl; intros st st' Hc F L H.
  - now injection H as <-.
  - apply andb_true_iff in L as [L1 L2].
    destruct (exec s st) as [st1|e] eqn:E; simpl in H; [|discriminate].
    apply (IH st1 st'); auto.
    + eapply exec_consistent; eassumption.
    + eapply exec_flag_synced; eassumption.
Qed.

Lemma flag_in_sync st :
  flag_synced st ->
  forall fs, In fs (file_sessions st) ->
    (fs_is_commented fs = true <-> comments_of (fs_id fs) st <> []).
Proof.
  intros F fs I. unfold flag_synced in F. rewrite Forall_forall in F.
  rewrite (F fs I), comments_of_nil_iff.
  split; [tauto|]. intros N.
  destruct (in_dec N.eq_dec (fs_id fs) (map c_session_id (comments st))); tauto.
Qed.

(** The trigger after an accepted INSERT: the sessions of the comment's
    session id have the flag set. *)
Lemma flag_set_by_insert c st st' :
  insert_comment c st = Ok st' ->
  In c (comments st')
  /\ In (c_session_id c) (map fs_id (file_sessions st'))
  /\ forall fs, In fs (file_sessions st') ->
       fs_id fs = c_session_id c -> fs_is_commented fs = true.
Proof.
  intros E. unfold insert_comment in E. checks E.
  split; [|split].
  - cbn [comments with_file_sessions with_comments].
    apply in_or_app; right; now left.
  - cbn [file_sessions with_file_sessions].
    rewrite map_key_update by reflexivity.
    eapply existsb_key; [apply N.eqb_eq | eassumption].
  - intros fs I Q. cbn [file_sessions with_file_sessions] in I.
    rewrite sql_update_rows in I.
    apply in_map_iff in I as [fs0 [E0 I]]. subst fs.
    destruct (N.eqb_spec (fs_id fs0) (c_session_id c)) as [K|K]; [reflexivity|].
    contradiction.
Qed.

(** The trigger after the DELETE of a comment: with [session_id] UNIQUE the
    session is left with no comment, and its flag is reset. *)
Lemma flag_reset_by_delete c st :
  NoDup (map c_session_id (comments st)) ->
  In c (comments st) ->
  let st' := delete_comment (c_id c) st in
  comments_of (c_session_id c) st' = []
  /\ forall fs, In fs (file_sessions st') ->
       fs_id fs = c_session_id c -> fs_is_commented fs = false.
Proof.
  intros ND Ic st'. split.
  - apply comments_of_nil_iff. intros I.
    apply in_map_iff in I as [c' [E' I']].
    unfold st', delete_comment, delete_comments_where in I'. simpl in I'.
    apply filter_In in I' as [I' P'].
    assert (c' = c) by (apply (NoDup_key_inj c_session_id c' c (comments st)); auto).
    subst c'. rewrite N.eqb_refl in P'. discriminate.
  - intros fs I Q. unfold st', delete_comment in I.
    rewrite delete_comments_rows in I.
    apply in_map_iff in I as [fs0 [E0 I]]. subst fs.
    destruct (existsb _ _) eqn:X; [reflexivity|]. exfalso.
    apply not_true_iff_false in X. apply X.
    apply existsb_exists. exists c. split.
    + apply filter_In. split; [assumption|]. apply N.eqb_refl.
    + apply N.eqb_eq. now rewrite <- Q.
Qed.

(** C2, as stated, fails: [is_commented] is a column like any other.  An
    INSERT can store a session with the flag set and no comment, and an
    UPDATE can clear the flag of a session that has its comment. *)
Lemma is_commented_written_directly :
  let flagged := mk_db [alice] [a_py] [set_is_commented true (closed_session 1)] [] [] in
  let cleared := mk_db [alice] [a_py] [closed_session 1] [] [fixed_bug 1 1] in
  run [InsertUser alice; InsertFile a_py;
       InsertSession (set_is_commented true (closed_session 1))] empty_db
  = Ok flagged
  /\ reachable flagged
  /\ map fs_is_commented (file_sessions flagged) = [true]
  /\ comments_of 1 flagged = []
  /\ run [InsertUser alice; InsertFile a_py; InsertSession (closed_session 1);
          InsertComment (fixed_bug 1 1); SetCommented 1 false] empty_db
     = Ok cleared
  /\ reachable cleared
  /\ map fs_is_commented (file_sessions cleared) = [false]
  /\ comments_of 1 cleared = [fixed_bug 1 1].
Proof.
  split; [reflexivity|]. split.
  { apply (run_reachable
             [InsertUser alice; InsertFile a_py;
              InsertSession (set_is_commented true (closed_session 1))] empty_db);
      [apply reachable_empty|reflexivity]. }
  split; [reflexivity|]. split; [reflexivity|]. split; [reflexivity|]. split.
  { apply (run_reachable
             [InsertUser alice; InsertFile a_py; InsertSession (closed_session 1);
              InsertComment (fixed_bug 1 1); SetCommented 1 false] empty_db);
      [apply reachable_empty|reflexivity]. }
  split; reflexivity.
Qed.

(** C2, amended. The trigger moves the flag: in every state a run of
    statements leads to, an accepted insert of a comment leaves the flag of
    its session true, and deleting a comment leaves its session with no
    comment and with the flag false.  The flag of a session is true exactly
    when [comments] holds a row for it after every run whose statements
    leave [is_commented] to its default and to the trigger, that is a run
    with no INSERT of a session that sets the flag, no UPDATE of the flag and
    no UPDATE of a comment. *)
Theorem is_commented_follows_trigger :
  forall (l : list stmt) (st : db),
    run l empty_db = Ok st ->
    (forallb leaves_flag_to_trigger l = true ->
     forall fs, In fs (file_sessions st) ->
       (fs_is_commented fs = true <-> comments_of (fs_id fs) st <> []))
    /\ (forall c st',
          insert_comment c st = Ok st' ->
          In c (comments st')
          /\ In (c_session_id c) (map fs_id (file_sessions st'))
          /\ forall fs, In fs (file_sessions st') ->
               fs_id fs = c_session_id c -> fs_is_commented fs = true)
    /\ (forall c,
          In c (comments st) ->
          let st' := delete_comment (c_id c) st in
          comments_of (c_session_id c) st' = []
          /\ forall fs, In fs (file_sessions st') ->
               fs_id fs = c_session_id c -> fs_is_commented fs = false).
Proof.
  intros l st H.
  assert (R : reachable st) by (eapply run_reachable; [apply reachable_empty|exact H]).
  pose proof (reachable_consistent _ R) as Hc.
  split; [|split].
  - intros L. apply flag_in_sync.
    apply (run_flag_synced l empty_db st); auto.
    + exact empty_consistent.
    + constructor.
  - intros c st'. apply flag_set_by_insert.
  - intros c Ic. apply flag_reset_by_delete; [|exact Ic].
    apply (comments_session_id_key _ Hc).
Qed.

Lemma is_commented_follows_trigger_witness :
  run [InsertUser alice; InsertFile a_py; InsertSession (closed_session 1);
       InsertComment (fixed_bug 1 1)] empty_db = Ok commented_store
  /\ (forall fs, In fs (file_sessions commented_store) ->
        (fs_is_commented fs = true <-> comments_of (fs_id fs) commented_store <> []))
  /\ file_sessions (delete_comment 1 commented_store) = [closed_session 1].
Proof.
  split; [reflexivity|]. split; [|reflexivity].
  exact (proj1 (is_commented_follows_trigger
                  [InsertUser alice; InsertFile a_py; InsertSession (closed_session 1);
                   InsertComment (fixed_bug 1 1)] commented_store eq_refl) eq_refl).
Defined.

(** ** One comment per session *)

Lemma comments_of_length sid st :
  NoDup (map c_session_id (comments st)) ->
  (List.length (comments_of sid st) <= 1)%nat.
Proof.
  unfold comments_of.
  induction (comments st) as [|c l IH]; simpl; intros H; [lia|].
  inversion H as [|? ? N H']; subst.
  destruct (N.eqb_spec (c_session_id c) sid) as [E|E]; simpl; [|auto].
  destruct (filter _ l) as [|c' l'] eqn:F; simpl; [lia|]. exfalso.
  assert (In c' (filter (fun c => N.eqb (c_session_id c) sid) l)) as I
    by (rewrite F; now left).
  apply filter_In in I as [I1 I2]. apply N.eqb_eq in I2.
  apply N. rewrite E, <- I2. now apply in_map.
Qed.

(** C5. In every reachable state a session has at most one comment.  On a
    session that has none, an insert with a new id, an existing author and a
    change type that fits the column succeeds and binds the comment; on a
    session that has one, every insert fails, and fails on the UNIQUE
    constraint of [session_id] when the row is otherwise acceptable.  A
    failed insert returns no state: the store stays as it was. *)
Theorem one_comment_per_session :
  forall st : db,
    reachable st ->
    (forall sid, (List.length (comments_of sid st) <= 1)%nat)
    /\ (forall c,
          comments_of (c_session_id c) st = [] ->
          varchar 50 (c_change_type c) = true ->
          ~ In (c_id c) (map c_id (comments st)) ->
          In (c_session_id c) (map fs_id (file_sessions st)) ->
          In (c_user_id c) (map u_id (users st)) ->
          exists st',
            insert_comment c st = Ok st'
            /\ comments_of (c_session_id c) st' = [c])
    /\ (forall c,
          comments_of (c_session_id c) st <> [] ->
          (exists e, insert_comment c st = Err e)
          /\ (varchar 50 (c_change_type c) = true ->
              ~ In (c_id c) (map c_id (comments st)) ->
              insert_comment c st = Err (unique_violation "comments_session_id_key")))
    /\ (forall c c' st',
          insert_comment c st = Ok st' ->
          c_session_id c' = c_session_id c ->
          exists e, insert_comment c' st' = Err e).
Proof.
  intros st R. pose proof (reachable_consistent _ R) as Hc.
  assert (Second : forall st0 c,
            comments_of (c_session_id c) st0 <> [] ->
            (exists e, insert_comment c st0 = Err e)
            /\ (varchar 50 (c_change_type c) = true ->
                ~ In (c_id c) (map c_id (comments st0)) ->
                insert_comment c st0 = Err (unique_violation "comments_session_id_key"))).
  { intros st0 c N.
    assert (X : existsb (fun x => N.eqb (c_session_id x) (c_session_id c))
                  (comments st0) = true).
    { apply (existsb_key N.eqb N.eqb_eq).
      destruct (in_dec N.eq_dec (c_session_id c) (map c_session_id (comments st0)))
        as [|NI]; [assumption|].
      apply comments_of_nil_iff in NI. contradiction. }
    unfold insert_comment. rewrite X. split.
    - destruct (varchar 50 (c_change_type c)); simpl; [|eauto].
      destruct (existsb (fun x => N.eqb (c_id x) (c_id c)) (comments st0));
        simpl; eauto.
    - intros V F. rewrite V. simpl.
      destruct (existsb (fun x => N.eqb (c_id x) (c_id c)) (comments st0)) eqn:Y;
        [|reflexivity].
      apply (existsb_key N.eqb N.eqb_eq) in Y. contradiction. }
  split; [intros sid; apply comments_of_length, (comments_session_id_key _ Hc)|].
  split; [|split].
  - intros c E V F Is Iu.
    apply comments_of_nil_iff in E.
    assert (Ok' : insert_comment c st =
                  Ok (with_file_sessions
                        (update_session_commented_flag TG_INSERT c (file_sessions st))
                        (with_comments (comments st ++ [c]) st))).
    { unfold insert_comment. rewrite V. simpl.
      apply (existsb_key N.eqb N.eqb_eq) in Is, Iu.
      destruct (existsb (fun x => N.eqb (c_id x) (c_id c)) (comments st)) eqn:Y.
      { apply (existsb_key N.eqb N.eqb_eq) in Y. contradiction. }
      destruct (existsb (fun x => N.eqb (c_session_id x) (c_session_id c))
                  (comments st)) eqn:Z.
      { apply (existsb_key N.eqb N.eqb_eq) in Z. contradiction. }
      simpl. rewrite Is, Iu. reflexivity. }
    eexists. split; [exact Ok'|].
    unfold comments_of. cbn [comments with_file_sessions with_comments].
    rewrite filter_app. simpl. rewrite N.eqb_refl.
    apply comments_of_nil_iff in E. unfold comments_of in E. now rewrite E.
  - intros c. apply Second.
  - intros c c' st' E Es.
    apply (Second st' c'). rewrite Es.
    rewrite comments_of_nil_iff. intros N. apply N.
    unfold insert_comment in E. checks E. simpl.
    rewrite map_app. apply in_or_app. right. now left.
Qed.

Lemma one_comment_per_session_witness :
  reachable closed_store
  /\ insert_comment (fixed_bug 1 1) closed_store = Ok commented_store
  /\ exists e, insert_comment (fixed_bug 2 1) commented_store = Err e.
Proof.
  split; [exact closed_store_reachable|].
  split; [reflexivity|].
  exact (proj2 (proj2 (proj2 (one_comment_per_session closed_store closed_store_reachable)))
           (fixed_bug 1 1) (fixed_bug 2 1) commented_store eq_refl eq_refl).
Defined.

(** ** Current editors *)

Lemma insert_desc_perm r l : Permutation (r :: l) (insert_desc r l).
Proof.
  induction l as [|x l IH]; simpl; [reflexivity|].
  destruct (ed_last_activity x <? ed_last_activity r); [reflexivity|].
  rewrite perm_swap. now apply perm_skip.
Qed.

Lemma order_by_perm l : Permutation l (order_by_last_activity_desc l).
Proof.
  induction l as [|r l IH]; simpl; [constructor|].
  rewrite <- insert_desc_perm. now apply perm_skip.
Qed.

Lemma insert_desc_sorted r l : Sorted desc l -> Sorted desc (insert_desc r l).
Proof.
  induction l as [|x l IH]; simpl; intros H.
  - repeat constructor.
  - destruct (Z.ltb_spec (ed_last_activity x) (ed_last_activity r)) as [L|L].
    + constructor; [assumption|]. constructor. unfold desc. lia.
    + inversion H as [|? ? S Hd]; subst.
      constructor; [now apply IH|].
      destruct l as [|y l]; simpl.
      * constructor. exact L.
      * destruct (ed_last_activity y <? ed_last_activity r).
        -- constructor. exact L.
        -- inversion Hd; subst. now constructor.
Qed.

Lemma order_by_sorted l : Sorted desc (order_by_last_activity_desc l).
Proof.
  induction l as [|r l IH]; simpl; [constructor|].
  now apply insert_desc_sorted.
Qed.

Lemma desc_trans : Relations_1.Transitive desc.
Proof. intros a b c. unfold desc. lia. Qed.

Lemma in_joined fs u f st :
  In (fs, u, f) (joined st) <->
  In fs (file_sessions st) /\ In u (users st) /\ In f (files st)
  /\ fs_user_id fs = u_id u /\ fs_file_id fs = f_id f.
Proof.
  unfold joined. rewrite in_flat_map. split.
  - intros [fs' [Is I]]. apply in_flat_map in I as [u' [Iu I]].
    apply in_map_iff in I as [f' [E If]]. injection E as -> -> ->.
    apply filter_In in Iu as [Iu Eu], If as [If Ef].
    apply N.eqb_eq in Eu, Ef. auto.
  - intros (Is & Iu & If & Eu & Ef). exists fs. split; [assumption|].
    apply in_flat_map. exists u. split.
    + apply filter_In. split; [assumption|]. now apply N.eqb_eq.
    + apply in_map_iff. exists f. split; [reflexivity|].
      apply filter_In. split; [assumption|]. now apply N.eqb_eq.
Qed.

Lemma filter_by_key {A} (key : A -> N) (l : list A) (k : N) :
  NoDup (map key l) -> In k (map key l) ->
  exists x, filter (fun y => N.eqb k (key y)) l = [x].
Proof.
  induction l as [|y l IH]; simpl; intros ND I; [contradiction|].
  inversion ND as [|? ? N ND']; subst.
  destruct (N.eqb_spec k (key y)) as [E|E].
  - exists y. f_equal.
    destruct (filter _ l) as [|z l'] eqn:F; [reflexivity|]. exfalso.
    assert (In z (filter (fun y => N.eqb k (key y)) l)) as Iz by (rewrite F; now left).
    apply filter_In in Iz as [Iz Ez]. apply N.eqb_eq in Ez.
    apply N. rewrite <- E, Ez. now apply in_map.
  - destruct I as [I|I]; [congruence|]. now apply IH.
Qed.

(** With the keys and references in place the join has one row per session. *)
Lemma joined_sessions st :
  consistent st -> map (fun row => fst (fst row)) (joined st) = file_sessions st.
Proof.
  intros Hc. unfold joined.
  pose proof (file_sessions_user_id_fkey _ Hc) as SU.
  pose proof (file_sessions_file_id_fkey _ Hc) as SF.
  induction (file_sessions st) as [|fs l IH]; simpl; [reflexivity|].
  rewrite map_app, IH.
  - destruct (filter_by_key u_id (users st) (fs_user_id fs)) as [u Eu];
      [apply (users_pkey _ Hc) | apply SU; now left |].
    destruct (filter_by_key f_id (files st) (fs_file_id fs)) as [f Ef];
      [apply (files_pkey _ Hc) | apply SF; now left |].
    rewrite Eu. simpl. rewrite Ef. reflexivity.
  - intros k I. apply SU. now right.
  - intros k I. apply SF. now right.
Qed.

Lemma editing_store_reachable : reachable editing_store.
Proof.
  apply (run_reachable
           [InsertUser alice; InsertFile a_py; InsertFile b_md;
            InsertSession (mk_file_session 1 1 1 100 500 None None None false 0);
            InsertSession (mk_file_session 2 1 2 100 900 None None None false 0);
            InsertSession (mk_file_session 3 1 1 100 950 (Some 960) None None false 0);
            InsertSession (mk_file_session 4 1 1 100 600 None None None false 0);
            UpdateSession 4 700 None None 1]
           empty_db); [apply reachable_empty|reflexivity].
Qed.

(** C7. In a reachable state [get_current_editors] returns one row for each
    session that has [ended_at IS NULL] and whose file's path is LIKE the
    pattern, and no other row; a row carries the user's name, the file's
    path and name, and the session's [last_activity] and id; the rows come
    in descending order of [last_activity]. *)
Theorem get_current_editors_exact :
  forall (LIKE : string -> string -> bool) (file_path_pattern : string) (st : db),
    reachable st ->
    let rows := get_current_editors LIKE file_path_pattern st in
    StronglySorted desc rows
    /\ NoDup (map ed_session_id rows)
    /\ (forall r, In r rows <->
          exists fs u f,
            In fs (file_sessions st) /\ In u (users st) /\ In f (files st)
            /\ fs_user_id fs = u_id u /\ fs_file_id fs = f_id f
            /\ fs_ended_at fs = None
            /\ LIKE (f_file_path f) file_path_pattern = true
            /\ r = mk_editor (u_username u) (f_file_path f) (f_file_name f)
                     (fs_last_activity fs) (fs_id fs))
    /\ (forall fs f,
          In fs (file_sessions st) -> In f (files st) ->
          fs_file_id fs = f_id f ->
          fs_ended_at fs = None ->
          LIKE (f_file_path f) file_path_pattern = true ->
          In (fs_id fs) (map ed_session_id rows)).
Proof.
  intros LIKE pat st R rows.
  pose proof (reachable_consistent _ R) as Hc.
  assert (Mem : forall r, In r rows <->
            exists fs u f,
              In fs (file_sessions st) /\ In u (users st) /\ In f (files st)
              /\ fs_user_id fs = u_id u /\ fs_file_id fs = f_id f
              /\ fs_ended_at fs = None
              /\ LIKE (f_file_path f) pat = true
              /\ r = mk_editor (u_username u) (f_file_path f) (f_file_name f)
                       (fs_last_activity fs) (fs_id fs)).
  { intros r. unfold rows, get_current_editors. split.
    - intros I. apply (Permutation_in _ (Permutation_sym (order_by_perm _))) in I.
      apply in_map_iff in I as [[[fs u] f] [E I]].
      apply filter_In in I as [I C]. apply in_joined in I.
      simpl in C. apply andb_true_iff in C as [C1 C2].
      exists fs, u, f. destruct I as (? & ? & ? & ? & ?).
      repeat split; auto.
      unfold is_null in C1. now destruct (fs_ended_at fs).
    - intros (fs & u & f & Is & Iu & If & Eu & Ef & O & L & ->).
      apply (Permutation_in _ (order_by_perm _)).
      apply in_map_iff. exists (fs, u, f). split; [reflexivity|].
      apply filter_In. split; [now apply in_joined|].
      simpl. rewrite O, L. reflexivity. }
  split; [|split; [|split]].
  - apply Sorted_StronglySorted; [exact desc_trans|apply order_by_sorted].
  - unfold rows, get_current_editors.
    eapply Permutation_NoDup;
      [apply Permutation_map, order_by_perm|].
    rewrite map_map.
    rewrite (map_ext _ (fun row => fs_id (fst (fst row))))
      by (intros [[fs u] f]; reflexivity).
    apply (NoDup_key_filter (fun row : file_session * user * file => fs_id (fst (fst row)))).
    rewrite <- (map_map (fun row : file_session * user * file => fst (fst row)) fs_id).
    rewrite joined_sessions by assumption.
    apply (file_sessions_pkey _ Hc).
  - exact Mem.
  - intros fs f Is If Ef O L.
    assert (Iu : In (fs_user_id fs) (map u_id (users st))).
    { apply (file_sessions_user_id_fkey _ Hc). now apply in_map. }
    apply in_map_iff in Iu as [u [Eu Iu]].
    apply in_map_iff.
    exists (mk_editor (u_username u) (f_file_path f) (f_file_name f)
              (fs_last_activity fs) (fs_id fs)).
    split; [reflexivity|]. apply Mem. exists fs, u, f. repeat split; auto.
Qed.

Lemma get_current_editors_exact_witness :
  reachable editing_store
  /\ get_current_editors like "/monitor/%" editing_store =
       [ mk_editor "alice" "/monitor/a.py" "a.py" 700 4;
         mk_editor "alice" "/monitor/a.py" "a.py" 500 1 ]
  /\ StronglySorted desc (get_current_editors like "/monitor/%" editing_store).
Proof.
  split; [exact editing_store_reachable|].
  split; [reflexivity|].
  exact (proj1 (get_current_editors_exact like "/monitor/%" editing_store
                  editing_store_reachable)).
Defined.

(** ** Grouping by day *)

Section Grouping.

Variable toLocaleDateString : timestamp -> string.
Context {A : Type}.
Variable started_at : A -> timestamp.

Let day (session : A) : string := toLocaleDateString (started_at session).
Let on_day (d : string) (session : A) : bool := String.eqb (day session) d.

Lemma acc_get_push date d session (acc : list (string * list A)) :
  acc_get d (acc_push date session acc) =
  if String.eqb date d
  then Some (match acc_get date acc with
             | Some sessions => sessions ++ [session]
             | None => [session]
             end)
  else acc_get d acc.
Proof.
  induction acc as [|[d0 g0] acc IH]; simpl.
  - now destruct (String.eqb date d).
  - destruct (String.eqb_spec d0 date) as [->|N]; simpl.
    + now destruct (String.eqb date d).
    + rewrite IH. destruct (String.eqb_spec date d) as [<-|N']; [|reflexivity].
      destruct (String.eqb_spec d0 date); [contradiction|reflexivity].
Qed.

Lemma acc_push_keys date session (acc : list (string * list A)) :
  map fst (acc_push date session acc) =
  map fst acc ++ (match acc_get date acc with Some _ => [] | None => [date] end).
Proof.
  induction acc as [|[d0 g0] acc IH]; simpl; [reflexivity|].
  destruct (String.eqb_spec d0 date) as [->|N]; simpl.
  - now rewrite app_nil_r.
  - now rewrite IH.
Qed.

Lemma acc_get_none date (acc : list (string * list A)) :
  acc_get date acc = None -> ~ In date (map fst acc).
Proof.
  induction acc as [|[d0 g0] acc IH]; simpl; intros H; [tauto|].
  destruct (String.eqb_spec d0 date); [discriminate|]. intros [E|I]; auto.
  now apply IH.
Qed.

Lemma acc_get_in d g (acc : list (string * list A)) :
  NoDup (map fst acc) -> In (d, g) acc -> acc_get d acc = Some g.
Proof.
  induction acc as [|[d0 g0] acc IH]; simpl; intros ND I; [contradiction|].
  inversion ND as [|? ? N ND']; subst.
  destruct I as [E|I].
  - injection E as -> ->. now rewrite String.eqb_refl.
  - destruct (String.eqb_spec d0 d) as [->|_]; [|now apply IH].
    exfalso. apply N. change d with (fst (d, g)). now apply in_map.
Qed.

Let groups_of := groups_of toLocaleDateString started_at.

Lemma groups_of_push seen acc session :
  groups_of seen acc ->
  groups_of (seen ++ [session]) (acc_push (day session) session acc).
Proof.
  intros [ND G]. split.
  - rewrite acc_push_keys.
    destruct (acc_get (day session) acc) eqn:E; [now rewrite app_nil_r|].
    apply NoDup_app; [assumption | repeat constructor; auto |].
    intros a Ia [<-|[]]. now apply acc_get_none in E.
  - intros d. rewrite acc_get_push, filter_app. cbn [filter].
    fold (day session).
    destruct (String.eqb_spec (day session) d) as [<-|N].
    + rewrite G. now destruct (filter _ seen).
    + rewrite app_nil_r. apply G.
Qed.

Lemma groups_of_fold changes : forall seen acc,
  groups_of seen acc ->
  groups_of (seen ++ changes)
    (fold_left (fun acc session =>
                  acc_push (toLocaleDateString (started_at session)) session acc)
       changes acc).
Proof.
  induction changes as [|session changes IH]; intros seen acc H; simpl.
  - now rewrite app_nil_r.
  - replace (seen ++ session :: changes) with ((seen ++ [session]) ++ changes)
      by now rewrite <- app_assoc.
    apply IH. now apply groups_of_push.
Qed.

(** The page's grouping: one entry per day that occurs, holding the
    sessions of that day in their order of arrival. *)
Lemma grouped_by_day changes :
  let timeline := grouped toLocaleDateString started_at changes in
  NoDup (map fst timeline)
  /\ (forall d sessions, In (d, sessions) timeline ->
        sessions <> [] /\ sessions = filter (on_day d) changes)
  /\ (forall session, In session changes ->
        exists sessions,
          In (day session, sessions) timeline /\ In session sessions).
Proof.
  intros timeline.
  assert (H : groups_of changes timeline).
  { apply (groups_of_fold changes [] []). split; [constructor|reflexivity]. }
  destruct H as [ND G]. split; [exact ND|]. split.
  - intros d g I. apply acc_get_in in I; [|exact ND]. rewrite G in I.
    unfold on_day, day.
    destruct (filter _ changes); [discriminate|].
    injection I as <-. split; [discriminate|reflexivity].
  - intros session I.
    assert (F : In session (filter (on_day (day session)) changes)).
    { apply filter_In. split; [assumption|]. apply String.eqb_refl. }
    pose proof (G (day session)) as E.
    unfold on_day, day in *.
    destruct (filter _ changes) as [|x g] eqn:Q; [contradiction|].
    exists (x :: g). split; [|exact F].
    clear - E. induction timeline as [|[d0 g0] acc IH]; simpl in *; [discriminate|].
    destruct (String.eqb_spec d0 (toLocaleDateString (started_at session))) as [->|N].
    + injection E as ->. now left.
    + right. now apply IH.
Qed.

End Grouping.

(** ** The change log *)

Lemma filter_none {A} (p : A -> bool) (l : list A) :
  (forall x, In x l -> p x = false) -> filter p l = [].
Proof.
  induction l as [|x l IH]; simpl; intros H; [reflexivity|].
  rewrite (H x) by now left. apply IH. intros y I. apply H. now right.
Qed.

Lemma shown_grouped {A} day (started_at : A -> timestamp) (changes : list A) r :
  In r (shown (grouped day started_at changes)) <-> In r changes.
Proof.
  pose proof (grouped_by_day day started_at changes) as (_ & G1 & G2).
  unfold shown. rewrite in_concat. split.
  - intros [g [Ig Ir]]. apply in_map_iff in Ig as [[d g'] [E Ig]].
    simpl in E. subst g'. apply G1 in Ig as [_ ->].
    now apply filter_In in Ir.
  - intros I. destruct (G2 r I) as [g [Ig Ir]].
    exists g. split; [|exact Ir].
    apply in_map_iff. now exists (day (started_at r), g).
Qed.

Lemma shown_push {A} date (session : A) acc :
  Permutation (shown (acc_push date session acc)) (session :: shown acc).
Proof.
  unfold shown. induction acc as [|[d g] acc IH]; simpl; [reflexivity|].
  destruct (String.eqb d date); simpl.
  - rewrite <- app_assoc. simpl. symmetry. apply Permutation_middle.
  - rewrite IH. symmetry. apply Permutation_middle.
Qed.

Lemma shown_grouped_perm {A} day (started_at : A -> timestamp) (changes : list A) :
  Permutation (shown (grouped day started_at changes)) changes.
Proof.
  unfold grouped.
  assert (P : forall acc,
            Permutation
              (shown (fold_left
                        (fun acc session =>
                           acc_push (day (started_at session)) session acc)
                        changes acc))
              (shown acc ++ changes)).
  { induction changes as [|session changes IH]; intros acc; simpl.
    - now rewrite app_nil_r.
    - rewrite IH, shown_push. simpl. apply Permutation_middle. }
  apply (P []).
Qed.

Lemma timeline_store_reachable : reachable timeline_store.
Proof.
  apply (run_reachable timeline_run empty_db); [apply reachable_empty|reflexivity].
Qed.

Lemma find_filter {A} (p : A -> bool) (l : list A) :
  find p l = hd_error (filter p l).
Proof.
  induction l as [|x l IH]; simpl; [reflexivity|].
  now destruct (p x).
Qed.

Lemma bound_comment_none st fs :
  comments_of (fs_id fs) st = [] -> bound_comment st fs = None.
Proof.
  unfold bound_comment, comments_of. rewrite find_filter. now intros ->.
Qed.

Lemma bound_comment_some st fs c :
  NoDup (map c_session_id (comments st)) ->
  In c (comments st) -> c_session_id c = fs_id fs ->
  bound_comment st fs = Some (c_content c, c_change_type c).
Proof.
  intros ND I E. unfold bound_comment. rewrite find_filter.
  destruct (filter_by_key c_session_id (comments st) (fs_id fs) ND) as [x Ex].
  { rewrite <- E. now apply in_map. }
  rewrite (filter_ext _ (fun y => N.eqb (fs_id fs) (c_session_id y)))
    by (intros y; apply N.eqb_sym).
  rewrite Ex. simpl.
  assert (Ix : In x (filter (fun y => N.eqb (fs_id fs) (c_session_id y)) (comments st)))
    by (rewrite Ex; now left).
  apply filter_In in Ix as [Ix Kx]. apply N.eqb_eq in Kx.
  assert (x = c) by (apply (NoDup_key_inj c_session_id x c (comments st)); auto; congruence).
  now subst x.
Qed.

Lemma session_comments_ids st :
  consistent st -> map ch_id (session_comments st) = map fs_id (file_sessions st).
Proof.
  intros Hc. rewrite <- (joined_sessions st Hc).
  unfold session_comments. rewrite !map_map.
  apply map_ext. intros [[fs u] f]. reflexivity.
Qed.

(** C8. [changeTimeline] returns every session, commented or not, grouped
    by the calendar day of its [started_at]: in a reachable state each
    session is shown once; there is one group per day that occurs, holding
    exactly the entries of that day; an entry carries the content and change
    type of the comment bound to its session when there is one, and no
    comment otherwise, in which case the card reads 'No comment' and 'N/A'. *)
Theorem changeTimeline_every_session :
  forall (toLocaleDateString : timestamp -> string) (st : db),
    reachable st ->
    let timeline := changeTimeline toLocaleDateString st in
    Permutation (map ch_id (shown timeline)) (map fs_id (file_sessions st))
    /\ NoDup (map fst timeline)
    /\ (forall d entries, In (d, entries) timeline ->
          entries <> []
          /\ forall e, In e entries <->
               In e (shown timeline) /\ toLocaleDateString (ch_started_at e) = d)
    /\ (forall e, In e (shown timeline) ->
          exists fs u f,
            In fs (file_sessions st) /\ In u (users st) /\ In f (files st)
            /\ fs_user_id fs = u_id u /\ fs_file_id fs = f_id f
            /\ ch_id e = fs_id fs
            /\ ch_started_at e = fs_started_at fs
            /\ ch_username e = u_username u
            /\ ch_file_path e = f_file_path f
            /\ ch_file_name e = f_file_name f
            /\ (comments_of (fs_id fs) st = [] ->
                ch_comment e = None
                /\ card_comment (ch_comment e) = ("No comment", "N/A"))
            /\ (forall c, In c (comments st) -> c_session_id c = fs_id fs ->
                  ch_comment e = Some (c_content c, c_change_type c)
                  /\ card_comment (ch_comment e) = (c_content c, c_change_type c)))
    /\ (forall fs, In fs (file_sessions st) ->
          comments_of (fs_id fs) st = [] ->
          In (fs_id fs) (map ch_id (shown timeline))).
Proof.
  intros day st R timeline.
  pose proof (reachable_consistent _ R) as Hc.
  pose proof (grouped_by_day day ch_started_at (session_comments st)) as (G0 & G1 & _).
  assert (P : Permutation (map ch_id (shown timeline)) (map fs_id (file_sessions st))).
  { rewrite <- (session_comments_ids st Hc).
    apply Permutation_map, shown_grouped_perm. }
  split; [exact P|]. split; [exact G0|]. split; [|split].
  - intros d entries I. destruct (G1 d entries I) as [N E].
    split; [exact N|]. intros e. rewrite E, filter_In.
    unfold timeline, changeTimeline. rewrite shown_grouped, String.eqb_eq. tauto.
  - intros e I. apply shown_grouped in I.
    unfold session_comments in I. apply in_map_iff in I as [[[fs u] f] [E I]].
    apply in_joined in I as (Is & Iu & If & Eu & Ef).
    exists fs, u, f. subst e. cbn [ch_id ch_started_at ch_username ch_file_path
                                    ch_file_name ch_comment].
    repeat split; auto.
    + now apply bound_comment_none.
    + now rewrite bound_comment_none.
    + apply bound_comment_some; auto. apply (comments_session_id_key _ Hc).
    + rewrite (bound_comment_some st fs c); auto.
      apply (comments_session_id_key _ Hc).
  - intros fs I _. apply (Permutation_in _ (Permutation_sym P)). now apply in_map.
Qed.

Lemma changeTimeline_every_session_witness :
  reachable timeline_store
  /\ map (fun entry => (fst entry, map ch_id (snd entry)))
       (changeTimeline sample_day timeline_store) =
     [("1/1/1970", [1%N; 3%N; 4%N]); ("1/2/1970", [2%N])]
  /\ map (fun e => card_comment (ch_comment e))
       (shown (changeTimeline sample_day timeline_store)) =
     [("fixed bug", "bugfix"); ("No comment", "N/A"); ("typo", "docs");
      ("new page", "feature")]
  /\ NoDup (map fst (changeTimeline sample_day timeline_store)).
Proof.
  split; [exact timeline_store_reachable|].
  split; [reflexivity|]. split; [reflexivity|].
  exact (proj1 (proj2 (changeTimeline_every_session
                         sample_day timeline_store timeline_store_reachable))).
Defined.

(** ** Adding a comment *)

Lemma absent_key {A} (key : A -> N) k l :
  ~ In k (map key l) -> existsb (fun x => N.eqb (key x) k) l = false.
Proof.
  intros N. destruct (existsb _ l) eqn:X; [|reflexivity].
  apply (existsb_key N.eqb N.eqb_eq) in X. contradiction.
Qed.

Lemma present_key {A} (key : A -> N) k l :
  In k (map key l) -> existsb (fun x => N.eqb (key x) k) l = true.
Proof. apply (existsb_key N.eqb N.eqb_eq). Qed.

Lemma find_absent {A} (key : A -> N) k l :
  ~ In k (map key l) -> find (fun x => N.eqb (key x) k) l = None.
Proof.
  intros N. rewrite find_filter, filter_none; [reflexivity|].
  intros x I. apply N.eqb_neq. intros E. apply N. rewrite <- E. now apply in_map.
Qed.

Lemma find_present {A} (key : A -> N) x l :
  NoDup (map key l) -> In x l -> find (fun y => N.eqb (key y) (key x)) l = Some x.
Proof.
  intros ND I. rewrite find_filter.
  destruct (filter_by_key key l (key x) ND) as [y Ey]; [now apply in_map|].
  rewrite (filter_ext _ (fun y => N.eqb (key x) (key y)))
    by (intros z; apply N.eqb_sym).
  rewrite Ey. simpl. f_equal.
  assert (Iy : In y (filter (fun y => N.eqb (key x) (key y)) l)) by (rewrite Ey; now left).
  apply filter_In in Iy as [Iy Ky]. apply N.eqb_eq in Ky.
  apply (NoDup_key_inj key y x l); auto.
Qed.

Lemma find_some_in {A} (p : A -> bool) l x :
  find p l = Some x -> In x l /\ p x = true.
Proof. apply find_some. Qed.

(** A check that fails makes [addComment] fail, and is among the failures
    reported. *)
Lemma addComment_failed change_types comment_id now sessionId authorUser
  content changeType st e :
  In e (addComment_checks change_types sessionId content changeType st) ->
  exists errors,
    addComment change_types comment_id now sessionId authorUser content changeType st
    = Failed errors
    /\ In e errors.
Proof.
  intros I. unfold addComment.
  destruct (addComment_checks _ _ _ _ _) as [|x l]; [contradiction|].
  eexists. split; [reflexivity|exact I].
Qed.

(** A comment is persisted only when every check has passed, and by the
    INSERT. *)
Lemma addComment_added change_types comment_id now sessionId authorUser
  content changeType st st' c :
  addComment change_types comment_id now sessionId authorUser content changeType st
  = Added st' c ->
  addComment_checks change_types sessionId content changeType st = []
  /\ c = mk_comment comment_id sessionId authorUser content changeType (Some now)
  /\ insert_comment c st = Ok st'.
Proof.
  unfold addComment.
  destruct (addComment_checks _ _ _ _ _) as [|x l]; [|discriminate].
  destruct (insert_comment _ st) as [st1|e] eqn:E; [|discriminate].
  intros Q. injection Q as <- <-. auto.
Qed.

(** C6. [addComment] fails with SessionNotFound when no session has the
    given id and with SessionStillOpen when the session's [ended_at] is
    NULL; the comment it persists is bound to a session of the store that
    has ended. *)
Theorem addComment_needs_ended_session :
  forall (change_types : list string) (comment_id : uuid) (now : timestamp)
         (sessionId authorUser : uuid) (content changeType : string) (st : db),
    reachable st ->
    let result :=
      addComment change_types comment_id now sessionId authorUser content changeType st in
    (~ In sessionId (map fs_id (file_sessions st)) ->
       exists errors, result = Failed errors /\ In SessionNotFound errors)
    /\ (forall fs, In fs (file_sessions st) -> fs_id fs = sessionId ->
          fs_ended_at fs = None ->
          exists errors, result = Failed errors /\ In SessionStillOpen errors)
    /\ (forall st' c, result = Added st' c ->
          c_session_id c = sessionId
          /\ comments st' = comments st ++ [c]
          /\ exists fs, In fs (file_sessions st) /\ fs_id fs = sessionId
                        /\ fs_ended_at fs <> None).
Proof.
  intros change_types comment_id now sid author content changeType st R result.
  pose proof (reachable_consistent _ R) as Hc.
  split; [|split].
  - intros N. apply addComment_failed. unfold addComment_checks.
    rewrite (find_absent fs_id sid (file_sessions st) N). now left.
  - intros fs I E O. apply addComment_failed. unfold addComment_checks.
    rewrite <- E.
    rewrite (find_present fs_id fs (file_sessions st) (file_sessions_pkey _ Hc) I).
    rewrite O. now left.
  - intros st' c A. apply addComment_added in A as (K & -> & E).
    split; [reflexivity|]. split.
    + unfold insert_comment in E. checks E. reflexivity.
    + unfold addComment_checks in K.
      destruct (find _ (file_sessions st)) as [fs|] eqn:F; [|discriminate K].
      apply find_some_in in F as [I Q]. apply N.eqb_eq in Q.
      exists fs. split; [exact I|]. split; [exact Q|].
      destruct (fs_ended_at fs); [discriminate|discriminate K].
Qed.

Lemma addComment_needs_ended_session_witness :
  reachable closed_store
  /\ addComment sample_change_types 1 900 1 1 "fixed bug" "bugfix" closed_store
     = Added commented_store (fixed_bug 1 1)
  /\ addComment sample_change_types 1 900 1 1 "fixed bug" "bugfix"
       (mk_db [alice] [a_py] [session_at 1 1000] [] [])
     = Failed [SessionStillOpen]
  /\ exists errors,
       addComment sample_change_types 1 900 7 1 "fixed bug" "bugfix" closed_store
       = Failed errors
       /\ In SessionNotFound errors.
Proof.
  split; [exact closed_store_reachable|].
  split; [reflexivity|]. split; [reflexivity|].
  apply (proj1 (addComment_needs_ended_session sample_change_types 1 900 7 1
                  "fixed bug" "bugfix" closed_store closed_store_reachable)).
  simpl. intros [H|[]]. discriminate.
Defined.

Lemma existsb_eqb_in (x : string) (l : list string) :
  existsb (String.eqb x) l = true <-> In x l.
Proof.
  rewrite existsb_exists. split.
  - intros [y [I E]]. apply String.eqb_eq in E. now subst y.
  - intros I. exists x. split; [exact I|apply String.eqb_refl].
Qed.

(** C9. [addComment] fails with InvalidChangeType whenever the change type
    is not one of the enumerated set and with EmptyContent whenever the
    content is blank; it then returns no new state, so nothing is persisted:
    a comment that is persisted has a listed change type and a content that
    is not blank, both as supplied.  The sessions page, for its part, posts
    nothing when the content is empty. *)
Theorem addComment_validates :
  forall (change_types : list string) (comment_id : uuid) (now : timestamp)
         (sessionId authorUser : uuid) (content changeType : string) (st : db),
    let result :=
      addComment change_types comment_id now sessionId authorUser content changeType st in
    (~ In changeType change_types ->
       exists errors, result = Failed errors /\ In InvalidChangeType errors)
    /\ (blank content = true ->
        exists errors, result = Failed errors /\ In EmptyContent errors)
    /\ (forall st' c, result = Added st' c ->
          In changeType change_types /\ blank content = false
          /\ c_change_type c = changeType /\ c_content c = content
          /\ comments st' = comments st ++ [c])
    /\ (forall session changeType',
          si_is_commented session = false ->
          comment_btn_click session "" changeType' = Some (alert "Comment is required")).
Proof.
  intros change_types comment_id now sid author content changeType st result.
  split; [|split; [|split]].
  - intros N. apply addComment_failed. unfold addComment_checks.
    apply in_or_app. right. apply in_or_app. left.
    destruct (existsb _ change_types) eqn:X; [|now left].
    apply existsb_eqb_in in X. contradiction.
  - intros B. apply addComment_failed. unfold addComment_checks.
    apply in_or_app. right. apply in_or_app. right. rewrite B. now left.
  - intros st' c A. apply addComment_added in A as (K & -> & E).
    unfold addComment_checks in K.
    apply app_eq_nil in K as [_ K]. apply app_eq_nil in K as [K1 K2].
    split; [|split; [|split; [|split]]]; try reflexivity.
    + destruct (existsb _ change_types) eqn:X; [|discriminate K1].
      now apply existsb_eqb_in.
    + destruct (blank content); [discriminate K2|reflexivity].
    + unfold insert_comment in E. checks E. reflexivity.
  - intros session changeType' F.
    unfold comment_btn_click, comment_form. now rewrite F.
Qed.

(** * Further properties of the store *)

(** ** Reclaiming, again *)

Lemma stale_cutoff now h fs :
  stale now h fs = open fs && (fs_last_activity fs <? cutoff now h).
Proof. reflexivity. Qed.

Lemma not_stale_after_close now h st :
  Forall (fun fs => open fs = true -> cutoff now h <= fs_last_activity fs)
    (file_sessions (fst (close_old_sessions now h st))).
Proof.
  rewrite close_old_sessions_rows.
  apply Forall_map, Forall_forall. intros fs _.
  destruct (stale now h fs) eqn:E; [discriminate|].
  intros O. rewrite stale_cutoff, O in E.
  simpl in E. apply Z.ltb_ge in E. exact E.
Qed.

Lemma open_after_close now h st :
  filter open (file_sessions (fst (close_old_sessions now h st)))
  = filter (fun fs => open fs && negb (stale now h fs)) (file_sessions st).
Proof.
  rewrite close_old_sessions_rows.
  induction (file_sessions st) as [|fs l IH]; simpl; [reflexivity|].
  destruct (stale now h fs) eqn:E; simpl.
  - rewrite andb_false_r. exact IH.
  - rewrite andb_true_r. destruct (open fs); now rewrite IH.
Qed.

(** X1. After [close_old_sessions] no session is left open with a
    [last_activity] before the cutoff, and the sessions still open are the
    ones that were open and not stale, unchanged. *)
Theorem close_old_sessions_leaves_no_stale :
  forall (now : timestamp) (max_age_hours : Z) (st : db),
    let st' := fst (close_old_sessions now max_age_hours st) in
    Forall (fun fs => open fs = true ->
                      now - max_age_hours * 3600000000 <= fs_last_activity fs)
      (file_sessions st')
    /\ filter open (file_sessions st')
       = filter (fun fs => open fs && negb (stale now max_age_hours fs))
           (file_sessions st).
Proof.
  intros now h st st'. subst st'. split.
  - exact (not_stale_after_close now h st).
  - exact (open_after_close now h st).
Qed.

(** X2. A second [close_old_sessions] whose cutoff is a timestamp not later
    than the first one's finds nothing to close: it returns 0 and leaves the
    store as the first call left it.  In particular the function is
    idempotent. *)
Theorem close_old_sessions_again :
  forall (now now' : timestamp) (max_age_hours max_age_hours' : Z)
         (st st' : db) (closed_count : Z),
    call_close_old_sessions now max_age_hours st = Ok (st', closed_count) ->
    MIN_TIMESTAMP <= now' - max_age_hours' * 3600000000 ->
    now' - max_age_hours' * 3600000000 <= now - max_age_hours * 3600000000 ->
    call_close_old_sessions now' max_age_hours' st' = Ok (st', 0).
Proof.
  intros now now' h h' st st' n C Min L.
  apply call_returns in C as [V C].
  assert (Q : st' = fst (close_old_sessions now h st)) by now rewrite C.
  rewrite call_in_range.
  2:{ apply IS_VALID_TIMESTAMP_iff in V. apply IS_VALID_TIMESTAMP_iff. lia. }
  f_equal.
  assert (N : forall fs, In fs (file_sessions st') -> stale now' h' fs = false).
  { intros fs I. rewrite Q in I.
    pose proof (not_stale_after_close now h st) as F.
    rewrite Forall_forall in F. specialize (F fs I).
    rewrite stale_cutoff.
    destruct (open fs); [|reflexivity]. simpl.
    apply Z.ltb_ge. specialize (F eq_refl). unfold cutoff, hours in *. lia. }
  unfold close_old_sessions.
  assert (E : sql_update (stale now' h') end_at_last_activity (file_sessions st')
              = (file_sessions st', 0)).
  { revert N. induction (file_sessions st') as [|fs l IH]; intros N; simpl;
      [reflexivity|].
    rewrite IH by (intros x I; apply N; now right).
    now rewrite (N fs) by now left. }
  rewrite E. now destruct st'.
Qed.

Lemma close_old_sessions_again_witness :
  call_close_old_sessions 2000 0 (mk_db [alice] [a_py] [session_at 1 1000] [] [])
  = Ok (mk_db [alice] [a_py] [end_at_last_activity (session_at 1 1000)] [] [], 1)
  /\ call_close_old_sessions 1000 0
       (mk_db [alice] [a_py] [end_at_last_activity (session_at 1 1000)] [] [])
     = Ok (mk_db [alice] [a_py] [end_at_last_activity (session_at 1 1000)] [] [], 0).
Proof.
  split; [reflexivity|].
  apply (close_old_sessions_again 2000 1000 0 0
           (mk_db [alice] [a_py] [session_at 1 1000] [] []) _ 1 eq_refl).
  - unfold MIN_TIMESTAMP. lia.
  - lia.
Defined.

Lemma open_split now h (l : list file_session) :
  List.length (filter open l)
  = (List.length (filter (fun fs => open fs && negb (stale now h fs)) l)
     + List.length (filter (stale now h) l))%nat.
Proof.
  induction l as [|fs l IH]; cbn [filter]; [reflexivity|].
  destruct (stale now h fs) eqn:E.
  - assert (O : open fs = true)
      by (apply stale_iff in E as [E _]; unfold open; now rewrite E).
    rewrite O. cbn [negb andb List.length]. rewrite IH. lia.
  - rewrite andb_true_r. destruct (open fs); cbn [List.length]; rewrite IH; lia.
Qed.

(** X3. The integer [close_old_sessions] returns is the drop in the number
    of open sessions; the call never opens a session. *)
Theorem close_old_sessions_count_is_drop :
  forall (now : timestamp) (max_age_hours : Z) (st st' : db) (closed_count : Z),
    call_close_old_sessions now max_age_hours st = Ok (st', closed_count) ->
    Z.of_nat (List.length (filter open (file_sessions st)))
    = Z.of_nat (List.length (filter open (file_sessions st'))) + closed_count
    /\ 0 <= closed_count.
Proof.
  intros now h st st' n C. apply call_returns in C as [_ C].
  assert (Q : st' = fst (close_old_sessions now h st)) by now rewrite C.
  assert (Qn : n = snd (close_old_sessions now h st)) by now rewrite C.
  subst st' n.
  rewrite (open_after_close now h st).
  rewrite close_old_sessions_count, (open_split now h). lia.
Qed.

Lemma close_old_sessions_count_is_drop_witness :
  call_close_old_sessions 7200000000 1 editing_store
  = Ok (fst (close_old_sessions 7200000000 1 editing_store), 3)
  /\ Z.of_nat (List.length (filter open (file_sessions editing_store)))
     = Z.of_nat (List.length
                   (filter open
                      (file_sessions (fst (close_old_sessions 7200000000 1 editing_store)))))
       + 3.
Proof.
  split; [reflexivity|].
  exact (proj1 (close_old_sessions_count_is_drop 7200000000 1 editing_store _ 3 eq_refl)).
Defined.

(** X4. A larger [max_age_hours] closes fewer sessions: every session stale
    under the larger age is stale under the smaller one, and of two calls
    that return, the one with the larger age returns the smaller count. *)
Theorem close_old_sessions_monotone :
  forall (now : timestamp) (h1 h2 : Z) (st st1 st2 : db) (n1 n2 : Z),
    h1 <= h2 ->
    call_close_old_sessions now h1 st = Ok (st1, n1) ->
    call_close_old_sessions now h2 st = Ok (st2, n2) ->
    (forall fs, stale now h2 fs = true -> stale now h1 fs = true)
    /\ n2 <= n1.
Proof.
  intros now h1 h2 st st1 st2 n1 n2 L C1 C2.
  apply call_returns in C1 as [_ C1]. apply call_returns in C2 as [_ C2].
  assert (Q1 : n1 = snd (close_old_sessions now h1 st)) by now rewrite C1.
  assert (Q2 : n2 = snd (close_old_sessions now h2 st)) by now rewrite C2.
  subst n1 n2. clear C1 C2.
  assert (M : forall fs, stale now h2 fs = true -> stale now h1 fs = true).
  { intros fs. rewrite !stale_iff. intros [O E]. split; [assumption|lia]. }
  split; [exact M|].
  rewrite !close_old_sessions_count.
  induction (file_sessions st) as [|fs l IH]; simpl; [lia|].
  destruct (stale now h2 fs) eqn:E2.
  - rewrite (M fs E2). simpl. lia.
  - destruct (stale now h1 fs); simpl; lia.
Qed.

Lemma close_old_sessions_monotone_witness :
  1 <= 24
  /\ call_close_old_sessions 7200000000 1 editing_store
     = Ok (fst (close_old_sessions 7200000000 1 editing_store), 3)
  /\ call_close_old_sessions 7200000000 24 editing_store = Ok (editing_store, 0)
  /\ 0 <= 3.
Proof.
  assert (L : 1 <= 24) by lia.
  split; [exact L|]. split; [reflexivity|]. split; [reflexivity|].
  exact (proj2 (close_old_sessions_monotone 7200000000 1 24 editing_store _ _ 3 0
                  L eq_refl eq_refl)).
Defined.

(** ** Who is editing *)

Lemma in_get_current_editors LIKE pat st e :
  In e (get_current_editors LIKE pat st) <->
  exists fs u f,
    In (fs, u, f) (joined st)
    /\ fs_ended_at fs = None
    /\ LIKE (f_file_path f) pat = true
    /\ e = editor_row (fs, u, f).
Proof.
  unfold get_current_editors. split.
  - intros I. apply (Permutation_in _ (Permutation_sym (order_by_perm _))) in I.
    apply in_map_iff in I as [[[fs u] f] [E I]].
    apply filter_In in I as [I C].
    simpl in C. apply andb_true_iff in C as [C1 C2].
    exists fs, u, f. repeat split; auto.
    unfold is_null in C1. now destruct (fs_ended_at fs).
  - intros (fs & u & f & I & O & L & ->).
    apply (Permutation_in _ (order_by_perm _)).
    apply in_map_iff. exists (fs, u, f). split; [reflexivity|].
    apply filter_In. split; [assumption|].
    simpl. rewrite O, L. reflexivity.
Qed.

Lemma in_joined_after_close now h st fs' u f :
  In (fs', u, f) (joined (fst (close_old_sessions now h st))) <->
  exists fs,
    In (fs, u, f) (joined st)
    /\ fs' = if stale now h fs then end_at_last_activity fs else fs.
Proof.
  rewrite in_joined.
  assert (U : users (fst (close_old_sessions now h st)) = users st)
    by (unfold close_old_sessions; now destruct (sql_update _ _ _)).
  assert (F : files (fst (close_old_sessions now h st)) = files st)
    by (unfold close_old_sessions; now destruct (sql_update _ _ _)).
  rewrite U, F, close_old_sessions_rows, in_map_iff. split.
  - intros ([fs [E I]] & Iu & If & Eu & Ef). exists fs. split; [|now symmetry].
    apply in_joined. subst fs'.
    destruct (stale now h fs); simpl in *; auto 10.
  - intros (fs & I & ->). apply in_joined in I as (Is & Iu & If & Eu & Ef).
    split; [now exists fs|].
    destruct (stale now h fs); simpl; auto.
Qed.

(** X5. After [close_old_sessions], [get_current_editors] lists exactly the
    editors it listed before whose [last_activity] is not before the cutoff:
    reclaiming removes the stale editors from the list and no one else. *)
Theorem get_current_editors_after_close :
  forall (LIKE : string -> string -> bool) (file_path_pattern : string)
         (now : timestamp) (max_age_hours : Z) (st : db) (e : editor),
    In e (get_current_editors LIKE file_path_pattern
            (fst (close_old_sessions now max_age_hours st)))
    <-> In e (get_current_editors LIKE file_path_pattern st)
        /\ now - max_age_hours * 3600000000 <= ed_last_activity e.
Proof.
  intros LIKE pat now h st e. rewrite !in_get_current_editors. split.
  - intros (fs' & u & f & I & O & L & ->).
    apply in_joined_after_close in I as (fs & I & ->).
    destruct (stale now h fs) eqn:E; [discriminate|].
    split; [now exists fs, u, f|].
    simpl. unfold stale, hours, is_null in E. rewrite O in E. simpl in E.
    now apply Z.ltb_ge in E.
  - intros [(fs & u & f & I & O & L & ->) C]. simpl in C.
    exists fs, u, f. repeat split; auto.
    apply in_joined_after_close. exists fs. split; [assumption|].
    assert (E : stale now h fs = false).
    { unfold stale, hours. rewrite O. simpl. now apply Z.ltb_ge. }
    now rewrite E.
Qed.

Lemma joined_rows_sessions st :
  consistent st ->
  forall p : file_session -> bool,
    map (fun row => fst (fst row))
      (filter (fun row : file_session * user * file => p (fst (fst row))) (joined st))
    = filter p (file_sessions st).
Proof.
  intros Hc p. rewrite <- (joined_sessions st Hc).
  induction (joined st) as [|row l IH]; simpl; [reflexivity|].
  destruct (p (fst (fst row))); simpl; now rewrite IH.
Qed.

(** X6. In a reachable state the view [active_sessions] has one row per
    session with [ended_at IS NULL], carrying the session's columns but
    [ended_at] and [is_commented], the name of its user and the path and
    name of its file; every editor that [get_current_editors] returns is a
    row of the view, and under a pattern that every path matches the
    function returns all of them. *)
Theorem active_sessions_are_the_open_sessions :
  forall (st : db),
    reachable st ->
    Permutation (map as_id (active_sessions st))
      (map fs_id (filter open (file_sessions st)))
    /\ NoDup (map as_id (active_sessions st))
    /\ (forall a, In a (active_sessions st) <->
          exists fs u f,
            In fs (file_sessions st) /\ In u (users st) /\ In f (files st)
            /\ fs_user_id fs = u_id u /\ fs_file_id fs = f_id f
            /\ fs_ended_at fs = None
            /\ a = mk_active_session (fs_id fs) (fs_user_id fs) (fs_file_id fs)
                     (fs_started_at fs) (fs_last_activity fs) (fs_hash_before fs)
                     (fs_hash_after fs) (fs_resume_count fs)
                     (u_username u) (f_file_path f) (f_file_name f))
    /\ (forall LIKE pat,
          incl (map ed_session_id (get_current_editors LIKE pat st))
            (map as_id (active_sessions st)))
    /\ (forall LIKE pat,
          (forall path, LIKE path pat = true) ->
          Permutation (map ed_session_id (get_current_editors LIKE pat st))
            (map as_id (active_sessions st))).
Proof.
  intros st R. pose proof (reachable_consistent _ R) as Hc.
  assert (Ids : map as_id (active_sessions st)
                = map fs_id (filter open (file_sessions st))).
  { unfold active_sessions. rewrite map_map.
    rewrite <- (joined_rows_sessions st Hc open), map_map.
    rewrite (filter_ext _ (fun row : file_session * user * file => open (fst (fst row))))
      by (intros [[fs u] f]; reflexivity).
    apply map_ext. intros [[fs u] f]. reflexivity. }
  split; [now rewrite Ids|]. split; [|split; [|split]].
  - rewrite Ids. apply NoDup_key_filter, (file_sessions_pkey _ Hc).
  - intros a. unfold active_sessions. rewrite in_map_iff. split.
    + intros [[[fs u] f] [E I]]. apply filter_In in I as [I O].
      apply in_joined in I as (? & ? & ? & ? & ?).
      exists fs, u, f. repeat split; auto.
      unfold is_null in O. now destruct (fs_ended_at fs).
    + intros (fs & u & f & Is & Iu & If & Eu & Ef & O & ->).
      exists (fs, u, f). split; [reflexivity|].
      apply filter_In. split; [now apply in_joined|]. now rewrite O.
  - intros LIKE pat k I. rewrite Ids.
    apply in_map_iff in I as [e [E I]].
    apply in_get_current_editors in I as (fs & u & f & I & O & L & ->).
    apply in_joined in I as (Is & _). subst k. simpl.
    apply in_map. apply filter_In. split; [assumption|].
    unfold open. now rewrite O.
  - intros LIKE pat All. rewrite Ids.
    unfold get_current_editors.
    rewrite <- (Permutation_map ed_session_id (order_by_perm _)).
    rewrite map_map.
    rewrite <- (joined_rows_sessions st Hc open), map_map.
    rewrite (filter_ext (current_editor LIKE pat)
               (fun row : file_session * user * file => open (fst (fst row)))).
    + apply Permutation_refl'. apply map_ext. intros [[fs u] f]. reflexivity.
    + intros [[fs u] f]. simpl. rewrite All. apply andb_true_r.
Qed.

Lemma active_sessions_are_the_open_sessions_witness :
  reachable editing_store
  /\ Permutation (map as_id (active_sessions editing_store)) [1%N; 2%N; 4%N]
  /\ NoDup (map as_id (active_sessions editing_store)).
Proof.
  split; [exact editing_store_reachable|].
  split.
  - exact (proj1 (active_sessions_are_the_open_sessions editing_store
                    editing_store_reachable)).
  - exact (proj1 (proj2 (active_sessions_are_the_open_sessions editing_store
                           editing_store_reachable))).
Defined.

(** ** What a comment changes *)

Lemma insert_comment_result c st st' :
  insert_comment c st = Ok st' ->
  st' = with_file_sessions
          (update_session_commented_flag TG_INSERT c (file_sessions st))
          (with_comments (comments st ++ [c]) st)
  /\ ~ In (c_id c) (map c_id (comments st))
  /\ ~ In (c_session_id c) (map c_session_id (comments st))
  /\ In (c_session_id c) (map fs_id (file_sessions st))
  /\ In (c_user_id c) (map u_id (users st)).
Proof.
  intros E. unfold insert_comment in E. checks E.
  split; [reflexivity|].
  split; [eapply fresh_key; [apply N.eqb_eq|eassumption]|].
  split; [eapply fresh_key; [apply N.eqb_eq|eassumption]|].
  split; eapply existsb_key; try apply N.eqb_eq; eassumption.
Qed.

(** X7. An accepted insert into [comments] appends the row and, through the
    trigger, changes one column of one session: the session of the comment
    keeps every column but [is_commented], every other session is untouched,
    and [users], [files] and [file_events] are as before. *)
Theorem insert_comment_frame :
  forall (c : comment) (st st' : db),
    insert_comment c st = Ok st' ->
    comments st' = comments st ++ [c]
    /\ users st' = users st
    /\ files st' = files st
    /\ file_events st' = file_events st
    /\ Forall2 (fun fs fs' =>
                  fs' = set_is_commented (fs_is_commented fs') fs
                  /\ (fs_id fs = c_session_id c -> fs_is_commented fs' = true)
                  /\ (fs_id fs <> c_session_id c -> fs' = fs))
         (file_sessions st) (file_sessions st').
Proof.
  intros c st st' E. apply insert_comment_result in E as [-> _].
  repeat split; try reflexivity.
  cbn [file_sessions with_file_sessions]. rewrite trigger_rows.
  apply Forall2_map_self. intros fs _.
  destruct (N.eqb_spec (fs_id fs) (c_session_id c)) as [Q|Q];
    destruct fs; simpl in *; repeat split; auto; contradiction.
Qed.

Lemma insert_comment_frame_witness :
  insert_comment (fixed_bug 1 1) closed_store = Ok commented_store
  /\ comments commented_store = comments closed_store ++ [fixed_bug 1 1]
  /\ file_events commented_store = file_events closed_store.
Proof.
  split; [reflexivity|].
  destruct (insert_comment_frame (fixed_bug 1 1) closed_store commented_store eq_refl)
    as (H1 & _ & _ & H2 & _).
  split; assumption.
Defined.

Lemma filter_all {A} (p : A -> bool) (l : list A) :
  (forall x, In x l -> p x = true) -> filter p l = l.
Proof.
  induction l as [|x l IH]; simpl; intros H; [reflexivity|].
  rewrite (H x) by now left. f_equal. apply IH. intros y I. apply H. now right.
Qed.

(** X8. Deleting a comment that has just been inserted gives back the
    store as it was before the insert, but for the flag of the comment's
    session, which the trigger leaves false: the result is that of clearing
    the flag directly, and is the store as it was when the flag was false
    before the insert. *)
Theorem delete_comment_undoes_insert :
  forall (c : comment) (st st' : db),
    insert_comment c st = Ok st' ->
    delete_comment (c_id c) st' = update_is_commented (c_session_id c) false st
    /\ ((forall fs, In fs (file_sessions st) -> fs_id fs = c_session_id c ->
           fs_is_commented fs = false) ->
        delete_comment (c_id c) st' = st).
Proof.
  intros c st st' E.
  apply insert_comment_result in E as (-> & Fid & Fsid & _ & _).
  assert (Keep : filter (fun x => negb (N.eqb (c_id x) (c_id c))) (comments st)
                 = comments st).
  { apply filter_all. intros x I. apply negb_true_iff.
    destruct (N.eqb_spec (c_id x) (c_id c)) as [Q|Q]; [|reflexivity].
    exfalso. apply Fid. rewrite <- Q. now apply in_map. }
  assert (Gone : filter (fun x => N.eqb (c_id x) (c_id c)) (comments st) = []).
  { apply filter_none. intros x I.
    destruct (N.eqb_spec (c_id x) (c_id c)) as [Q|Q]; [|reflexivity].
    exfalso. apply Fid. rewrite <- Q. now apply in_map. }
  assert (D : delete_comment (c_id c)
                (with_file_sessions
                   (update_session_commented_flag TG_INSERT c (file_sessions st))
                   (with_comments (comments st ++ [c]) st))
              = update_is_commented (c_session_id c) false st).
  { unfold delete_comment, delete_comments_where, update_is_commented.
    cbn [users files file_sessions file_events comments
         with_file_sessions with_comments].
    rewrite !filter_app, Keep, Gone. cbn [filter app].
    rewrite N.eqb_refl. cbn [negb fold_left app].
    rewrite app_nil_r, !trigger_rows, map_map, sql_update_rows.
    unfold with_file_sessions. cbn [users files file_events comments]. f_equal.
    apply map_ext. intros fs.
    destruct (N.eqb_spec (fs_id fs) (c_session_id c)) as [Q|Q].
    - cbn [fs_id set_is_commented]. rewrite Q, N.eqb_refl. reflexivity.
    - destruct (N.eqb_spec (fs_id fs) (c_session_id c)); [contradiction|reflexivity]. }
  split; [exact D|].
  intros F. rewrite D. unfold update_is_commented.
  rewrite sql_update_rows, map_unchanged; [now destruct st|].
  intros fs I.
  destruct (N.eqb_spec (fs_id fs) (c_session_id c)) as [Q|Q]; [|reflexivity].
  specialize (F fs I Q). destruct fs; simpl in *. now subst.
Qed.

Lemma delete_comment_undoes_insert_witness :
  insert_comment (fixed_bug 1 1) closed_store = Ok commented_store
  /\ delete_comment 1 commented_store = closed_store.
Proof.
  split; [reflexivity|].
  apply (proj2 (delete_comment_undoes_insert (fixed_bug 1 1) closed_store commented_store
                  eq_refl)).
  intros fs [<-|[]] _. reflexivity.
Defined.

(** ** Cascading deletes *)

Lemma of_gone_iff (p : file_session -> bool) (l : list file_session) k :
  existsb (fun fs => N.eqb (fs_id fs) k) (filter p l) = true <->
  exists fs, In fs l /\ p fs = true /\ fs_id fs = k.
Proof.
  rewrite existsb_exists. split.
  - intros [fs [I E]]. apply filter_In in I as [I P]. apply N.eqb_eq in E.
    now exists fs.
  - intros (fs & I & P & E). exists fs. split.
    + now apply filter_In.
    + now apply N.eqb_eq.
Qed.

Lemma delete_sessions_where_sessions p st :
  consistent st ->
  file_sessions (delete_sessions_where p st)
  = filter (fun fs => negb (p fs)) (file_sessions st).
Proof.
  intros Hc. unfold delete_sessions_where. rewrite delete_comments_rows.
  cbn [file_sessions comments with_file_sessions with_file_events].
  apply map_unchanged. intros fs I.
  apply filter_In in I as [I N]. apply negb_true_iff in N.
  destruct (existsb _ _) eqn:X; [|reflexivity]. exfalso.
  apply existsb_exists in X as [c [Ic Ec]]. apply N.eqb_eq in Ec.
  apply filter_In in Ic as [_ G].
  apply of_gone_iff in G as (fs0 & I0 & P0 & E0).
  assert (fs0 = fs).
  { apply (NoDup_key_inj fs_id fs0 fs (file_sessions st)); auto.
    - apply (file_sessions_pkey _ Hc).
    - congruence. }
  congruence.
Qed.

(** X9. In a reachable state [DELETE FROM file_sessions WHERE id = sid]
    removes the session, its events and its comment, and nothing else: the
    other sessions stay as they are, flag included, and so do the events and
    comments of other sessions, the users and the files. *)
Theorem delete_session_exact :
  forall (sid : uuid) (st : db),
    reachable st ->
    let st' := delete_session sid st in
    file_sessions st'
      = filter (fun fs => negb (N.eqb (fs_id fs) sid)) (file_sessions st)
    /\ file_events st'
       = filter (fun e => negb (N.eqb (fe_session_id e) sid)) (file_events st)
    /\ comments st'
       = filter (fun c => negb (N.eqb (c_session_id c) sid)) (comments st)
    /\ users st' = users st
    /\ files st' = files st.
Proof.
  intros sid st R st'. pose proof (reachable_consistent _ R) as Hc.
  assert (G : forall k, In k (map fs_id (file_sessions st)) ->
            existsb (fun fs => N.eqb (fs_id fs) k)
              (filter (fun fs => N.eqb (fs_id fs) sid) (file_sessions st))
            = N.eqb k sid).
  { intros k I. destruct (N.eqb_spec k sid) as [->|Q].
    - apply of_gone_iff. apply in_map_iff in I as [fs [E I]].
      exists fs. repeat split; auto. now apply N.eqb_eq.
    - destruct (existsb _ _) eqn:X; [|reflexivity]. exfalso.
      apply of_gone_iff in X as (fs & _ & P & E). apply N.eqb_eq in P.
      congruence. }
  split; [apply (delete_sessions_where_sessions _ st Hc)|].
  unfold st', delete_session, delete_sessions_where, delete_comments_where.
  cbn [users files file_events comments
       with_file_sessions with_file_events with_comments].
  repeat split.
  - apply filter_ext_in. intros e I. f_equal. apply G.
    apply (file_events_session_id_fkey _ Hc). now apply in_map.
  - apply filter_ext_in. intros c I. f_equal. apply G.
    apply (comments_session_id_fkey _ Hc). now apply in_map.
Qed.

Lemma delete_session_exact_witness :
  reachable timeline_store
  /\ map fs_id (file_sessions (delete_session 2 timeline_store)) = [1%N; 3%N; 4%N]
  /\ map c_id (comments (delete_session 2 timeline_store)) = [1%N; 4%N]
  /\ file_sessions (delete_session 2 timeline_store)
     = filter (fun fs => negb (N.eqb (fs_id fs) 2)) (file_sessions timeline_store).
Proof.
  split; [exact timeline_store_reachable|].
  split; [reflexivity|]. split; [reflexivity|].
  exact (proj1 (delete_session_exact 2 timeline_store timeline_store_reachable)).
Defined.

Lemma in_sessions_after_delete_comments p st fs' :
  In fs' (file_sessions (delete_comments_where p st)) ->
  exists fs, In fs (file_sessions st)
             /\ fs' = set_is_commented (fs_is_commented fs') fs.
Proof.
  rewrite delete_comments_rows, in_map_iff. intros [fs [E I]].
  exists fs. split; [assumption|]. subst fs'.
  destruct (existsb _ _); destruct fs; reflexivity.
Qed.

Lemma sessions_of_user_after_delete_comments p uid st k :
  (exists fs, In fs (file_sessions (delete_comments_where p st))
              /\ N.eqb (fs_user_id fs) uid = true /\ fs_id fs = k)
  <-> (exists fs, In fs (file_sessions st)
                  /\ fs_user_id fs = uid /\ fs_id fs = k).
Proof.
  rewrite delete_comments_rows. split.
  - intros (fs' & I & U & E). apply in_map_iff in I as [fs [Q I]].
    exists fs. apply N.eqb_eq in U. subst fs'.
    destruct (existsb _ _); simpl in *; auto.
  - intros (fs & I & U & E).
    eexists. split; [apply in_map; exact I|].
    destruct (existsb _ _); simpl; rewrite U, N.eqb_refl; auto.
Qed.

Lemma filter_map_commute {A} (g : A -> A) (q : A -> bool) l :
  (forall x, q (g x) = q x) -> filter q (map g l) = map g (filter q l).
Proof.
  intros Hq. induction l as [|x l IH]; simpl; [reflexivity|].
  rewrite Hq. destruct (q x); simpl; now rewrite IH.
Qed.

Lemma ids_filter_map (g : file_session -> file_session) (q : file_session -> bool) l :
  (forall x, q (g x) = q x) -> (forall x, fs_id (g x) = fs_id x) ->
  map fs_id (filter q (map g l)) = map fs_id (filter q l).
Proof.
  intros Hq Hid. induction l as [|x l IH]; simpl; [reflexivity|].
  rewrite Hq. destruct (q x); simpl; now rewrite ?Hid, IH.
Qed.

(** X10. In a reachable state [DELETE FROM users WHERE id = uid] cascades:
    the user's sessions go, with their events and comments, and so do the
    comments the user wrote on other users' sessions.  The sessions of the
    other users all stay, in order, each as it was but for the flag, which
    the trigger resets on a session that loses a comment this way; [files]
    is untouched and no session is left that refers to the user. *)
Theorem delete_user_cascade :
  forall (uid : uuid) (st : db),
    reachable st ->
    let st' := delete_user uid st in
    users st' = filter (fun u => negb (N.eqb (u_id u) uid)) (users st)
    /\ files st' = files st
    /\ map fs_id (file_sessions st')
       = map fs_id (filter (fun fs => negb (N.eqb (fs_user_id fs) uid))
                      (file_sessions st))
    /\ (forall c, In c (comments st') <->
          In c (comments st) /\ c_user_id c <> uid
          /\ forall fs, In fs (file_sessions st) ->
               fs_id fs = c_session_id c -> fs_user_id fs <> uid)
    /\ (forall e, In e (file_events st') <->
          In e (file_events st)
          /\ forall fs, In fs (file_sessions st) ->
               fs_id fs = fe_session_id e -> fs_user_id fs <> uid)
    /\ (forall fs, In fs (file_sessions st') -> fs_user_id fs <> uid)
    /\ file_sessions st'
       = map (fun fs =>
                if existsb (fun c => N.eqb (c_session_id c) (fs_id fs))
                     (filter (fun c => N.eqb (c_user_id c) uid) (comments st))
                then set_is_commented false fs
                else fs)
           (filter (fun fs => negb (N.eqb (fs_user_id fs) uid)) (file_sessions st)).
Proof.
  intros uid st R st'. pose proof (reachable_consistent _ R) as Hc.
  set (P1 := fun c => N.eqb (c_user_id c) uid).
  set (p := fun fs => N.eqb (fs_user_id fs) uid).
  set (st1 := delete_comments_where P1 st).
  assert (H1 : consistent st1) by now apply delete_comments_consistent.
  assert (Hc' : consistent st') by now apply delete_user_consistent.
  assert (S' : file_sessions st' = filter (fun fs => negb (p fs)) (file_sessions st1)).
  { unfold st', delete_user. cbn [file_sessions with_users].
    apply (delete_sessions_where_sessions p st1 H1). }
  assert (Gone : forall k,
            existsb (fun fs => N.eqb (fs_id fs) k) (filter p (file_sessions st1)) = false
            <-> forall fs, In fs (file_sessions st) -> fs_id fs = k -> fs_user_id fs <> uid).
  { intros k. rewrite <- not_true_iff_false, of_gone_iff.
    unfold st1, p. rewrite sessions_of_user_after_delete_comments. split.
    - intros N fs I E U. apply N. now exists fs.
    - intros N (fs & I & U & E). now apply (N fs I E). }
  split; [reflexivity|]. split; [reflexivity|]. split; [|split; [|split; [|split]]].
  - rewrite S'. unfold st1. rewrite delete_comments_rows.
    apply ids_filter_map; intros fs; destruct (existsb _ _); reflexivity.
  - intros c. unfold st', delete_user, delete_sessions_where, delete_comments_where.
    cbn [users files file_sessions file_events comments
         with_users with_file_sessions with_file_events with_comments].
    rewrite !filter_In, !negb_true_iff.
    fold P1. fold st1. fold p.
    change (with_comments (filter (fun c0 => negb (P1 c0)) (comments st)) st)
      with (with_comments (comments st1) st).
    rewrite <- (Gone (c_session_id c)).
    unfold P1. split.
    + intros [[I N] G]. split; [exact I|]. split; [|exact G].
      intros Q. rewrite Q, N.eqb_refl in N. discriminate.
    + intros (I & N & G). split; [split; [exact I|now apply N.eqb_neq]|exact G].
  - intros e. unfold st', delete_user, delete_sessions_where, delete_comments_where.
    cbn [users files file_sessions file_events comments
         with_users with_file_sessions with_file_events with_comments].
    rewrite !filter_In, !negb_true_iff.
    rewrite <- (Gone (fe_session_id e)).
    split; intros [I G]; (split; [exact I|exact G]).
  - intros fs I.
    rewrite S' in I. apply filter_In in I as [_ N].
    apply negb_true_iff in N. now apply N.eqb_neq.
  - rewrite S'. unfold st1. rewrite delete_comments_rows.
    apply filter_map_commute. intros fs. unfold p.
    now destruct (existsb _ _).
Qed.

Lemma review_store_reachable : reachable review_store.
Proof.
  apply (run_reachable review_run empty_db); [apply reachable_empty|reflexivity].
Qed.

Lemma delete_user_cascade_witness :
  reachable review_store
  /\ delete_user 2 review_store = closed_store
  /\ users (delete_user 2 review_store)
     = filter (fun u => negb (N.eqb (u_id u) 2)) (users review_store).
Proof.
  split; [exact review_store_reachable|]. split; [reflexivity|].
  exact (proj1 (delete_user_cascade 2 review_store review_store_reachable)).
Defined.

(** ** Keys and references in every state *)

(** X11. Usernames and file paths stay unique: in every reachable state no
    two users share a username and no two files a path, and an insert of a
    user whose name is taken, or of a file whose path is taken, is refused
    (on the UNIQUE constraint when the row is otherwise acceptable). *)
Theorem usernames_and_paths_unique :
  forall st : db,
    reachable st ->
    NoDup (map u_username (users st))
    /\ NoDup (map f_file_path (files st))
    /\ (forall u, In (u_username u) (map u_username (users st)) ->
          (exists e, insert_user u st = Err e)
          /\ (varchar 100 (u_username u) = true ->
              varchar_null 255 (u_email u) = true ->
              ~ In (u_id u) (map u_id (users st)) ->
              insert_user u st = Err (unique_violation "users_username_key")))
    /\ (forall f, In (f_file_path f) (map f_file_path (files st)) ->
          (exists e, insert_file f st = Err e)
          /\ (varchar 1000 (f_file_path f) = true ->
              varchar 255 (f_file_name f) = true ->
              ~ In (f_id f) (map f_id (files st)) ->
              insert_file f st = Err (unique_violation "files_file_path_key"))).
Proof.
  intros st R. pose proof (reachable_consistent _ R) as Hc.
  split; [apply (users_username_key _ Hc)|].
  split; [apply (files_file_path_key _ Hc)|]. split.
  - intros u I. apply (existsb_key String.eqb String.eqb_eq) in I.
    unfold insert_user. rewrite I. split.
    + destruct (varchar 100 (u_username u)); simpl; [|eauto].
      destruct (varchar_null 255 (u_email u)); simpl; [|eauto].
      destruct (existsb (fun x => N.eqb (u_id x) (u_id u)) (users st)); simpl; eauto.
    + intros V1 V2 F. apply absent_key in F. now rewrite V1, V2, F.
  - intros f I. apply (existsb_key String.eqb String.eqb_eq) in I.
    unfold insert_file. rewrite I. split.
    + destruct (varchar 1000 (f_file_path f)); simpl; [|eauto].
      destruct (varchar 255 (f_file_name f)); simpl; [|eauto].
      destruct (existsb (fun x => N.eqb (f_id x) (f_id f)) (files st)); simpl; eauto.
    + intros V1 V2 F. apply absent_key in F. now rewrite V1, V2, F.
Qed.

Lemma usernames_and_paths_unique_witness :
  reachable review_store
  /\ insert_user (mk_user 3 "bob" None None) review_store
     = Err (unique_violation "users_username_key")
  /\ NoDup (map u_username (users review_store)).
Proof.
  split; [exact review_store_reachable|]. split; [reflexivity|].
  exact (proj1 (usernames_and_paths_unique review_store review_store_reachable)).
Defined.

(** X12. No dangling reference, whatever has been inserted, updated,
    reclaimed or deleted: in every reachable state each session has its user
    and its file, each event its session, and each comment its session and
    its author. *)
Theorem references_resolve :
  forall st : db,
    reachable st ->
    (forall fs, In fs (file_sessions st) ->
       (exists u, In u (users st) /\ u_id u = fs_user_id fs)
       /\ (exists f, In f (files st) /\ f_id f = fs_file_id fs))
    /\ (forall e, In e (file_events st) ->
          exists fs, In fs (file_sessions st) /\ fs_id fs = fe_session_id e)
    /\ (forall c, In c (comments st) ->
          (exists fs, In fs (file_sessions st) /\ fs_id fs = c_session_id c)
          /\ (exists u, In u (users st) /\ u_id u = c_user_id c)).
Proof.
  intros st R. pose proof (reachable_consistent _ R) as Hc.
  assert (Res : forall {A B} (ka : A -> N) (kb : B -> N) la lb,
            incl (map ka la) (map kb lb) ->
            forall a, In a la -> exists b, In b lb /\ kb b = ka a).
  { intros A B ka kb la lb H a I.
    assert (J : In (ka a) (map kb lb)) by (apply H; now apply in_map).
    apply in_map_iff in J as [b [E J]]. now exists b. }
  split; [|split].
  - intros fs I. split.
    + apply (Res _ _ fs_user_id u_id _ _ (file_sessions_user_id_fkey _ Hc) fs I).
    + apply (Res _ _ fs_file_id f_id _ _ (file_sessions_file_id_fkey _ Hc) fs I).
  - intros e I.
    apply (Res _ _ fe_session_id fs_id _ _ (file_events_session_id_fkey _ Hc) e I).
  - intros c I. split.
    + apply (Res _ _ c_session_id fs_id _ _ (comments_session_id_fkey _ Hc) c I).
    + apply (Res _ _ c_user_id u_id _ _ (comments_user_id_fkey _ Hc) c I).
Qed.

Lemma references_resolve_witness :
  reachable (delete_user 2 review_store)
  /\ forall c, In c (comments (delete_user 2 review_store)) ->
       exists u, In u (users (delete_user 2 review_store)) /\ u_id u = c_user_id c.
Proof.
  assert (R : reachable (delete_user 2 review_store)).
  { apply (reachable_exec review_store (DeleteUser 2));
      [exact review_store_reachable|reflexivity]. }
  split; [exact R|].
  intros c I.
  exact (proj2 (proj2 (proj2 (references_resolve _ R)) c I)).
Defined.

(** ** A comment and the view *)

Lemma Forall2_in_l {A B} (R : A -> B -> Prop) l l' x :
  Forall2 R l l' -> In x l -> exists y, In y l' /\ R x y.
Proof.
  induction 1 as [|a b l l' H _ IH]; intros I; [contradiction|].
  destruct I as [<-|I].
  - exists b. split; [now left|assumption].
  - destruct (IH I) as [y [Iy Ry]]. exists y. split; [now right|assumption].
Qed.

Lemma Forall2_in_r {A B} (R : A -> B -> Prop) l l' y :
  Forall2 R l l' -> In y l' -> exists x, In x l /\ R x y.
Proof.
  induction 1 as [|a b l l' H _ IH]; intros I; [contradiction|].
  destruct I as [<-|I].
  - exists a. split; [now left|assumption].
  - destruct (IH I) as [x [Ix Rx]]. exists x. split; [now right|assumption].
Qed.

Lemma in_sessions_with_comments st r :
  In r (sessions_with_comments st) <->
  exists fs u f c,
    In (fs, u, f) (joined st)
    /\ fs_is_commented fs = true
    /\ In c (left_join_comments st fs)
    /\ r = commented_session_row (fs, u, f, c).
Proof.
  unfold sessions_with_comments. rewrite in_map_iff. split.
  - intros [[[[fs u] f] c] [E I]]. apply filter_In in I as [I F].
    apply in_flat_map in I as [[[fs0 u0] f0] [J I]].
    apply in_map_iff in I as [c0 [Q I]]. injection Q as -> -> -> ->.
    exists fs, u, f, c. auto.
  - intros (fs & u & f & c & J & F & I & ->).
    exists (fs, u, f, c). split; [reflexivity|].
    apply filter_In. split; [|exact F].
    apply in_flat_map. exists (fs, u, f). split; [exact J|].
    apply in_map_iff. now exists c.
Qed.

(** X14. A comment shows in the view as soon as it is inserted and leaves
    it when it is deleted: in a reachable state, after an accepted insert the
    view [sessions_with_comments] has a row for the comment's session with
    the comment's content, change type and creation time, and after the
    delete of that comment the view has no row for the session. *)
Theorem comment_shows_in_view :
  forall (c : comment) (st st' : db),
    reachable st ->
    insert_comment c st = Ok st' ->
    (exists r, In r (sessions_with_comments st')
               /\ sc_session_id r = c_session_id c
               /\ sc_comment_content r = Some (c_content c)
               /\ sc_change_type r = Some (c_change_type c)
               /\ sc_comment_created_at r = c_created_at c)
    /\ ~ In (c_session_id c)
         (map sc_session_id (sessions_with_comments (delete_comment (c_id c) st'))).
Proof.
  intros c st st' R E.
  pose proof (reachable_consistent _ R) as Hc.
  assert (R' : reachable st')
    by (apply (reachable_exec st (InsertComment c)); [|apply exec_of_assigned];
        assumption).
  pose proof (reachable_consistent _ R') as Hc'.
  pose proof (flag_set_by_insert c st st' E) as (Ic & _ & _).
  split.
  - pose proof (insert_comment_result c st st' E) as (-> & _ & Fsid & Is & _).
    apply in_map_iff in Is as [fs [Eid Is]].
    set (st' := with_file_sessions _ _) in *.
    assert (I' : In (set_is_commented true fs) (file_sessions st')).
    { unfold st'. cbn [file_sessions with_file_sessions]. rewrite trigger_rows.
      apply in_map_iff. exists fs. split; [|assumption].
      now rewrite Eid, N.eqb_refl. }
    assert (Iu : In (fs_user_id fs) (map u_id (users st)))
      by (apply (file_sessions_user_id_fkey _ Hc); now apply in_map).
    assert (If : In (fs_file_id fs) (map f_id (files st)))
      by (apply (file_sessions_file_id_fkey _ Hc); now apply in_map).
    apply in_map_iff in Iu as [u [Eu Iu]]. apply in_map_iff in If as [f [Ef If]].
    exists (commented_session_row (set_is_commented true fs, u, f, Some c)).
    split; [|simpl; auto].
    apply in_sessions_with_comments.
    exists (set_is_commented true fs), u, f, (Some c).
    split; [|split; [reflexivity|split; [|reflexivity]]].
    + apply in_joined. repeat split; auto.
    + unfold left_join_comments, st'.
      cbn [comments with_file_sessions with_comments fs_id set_is_commented].
      rewrite filter_app, filter_none.
      * simpl. rewrite Eid, N.eqb_refl. simpl. now left.
      * intros x Ix. apply N.eqb_neq. intros Q. apply Fsid.
        rewrite <- Eid, Q. now apply in_map.
  - intros I. apply in_map_iff in I as [r [Er Ir]].
    apply in_sessions_with_comments in Ir as (fs & u & f & oc & J & F & _ & ->).
    simpl in Er. apply in_joined in J as (Is & _).
    pose proof (flag_reset_by_delete c st' (comments_session_id_key _ Hc') Ic)
      as [_ Reset].
    rewrite (Reset fs Is Er) in F. discriminate.
Qed.

Lemma comment_shows_in_view_witness :
  reachable closed_store
  /\ insert_comment (fixed_bug 1 1) closed_store = Ok commented_store
  /\ map sc_comment_content (sessions_with_comments commented_store)
     = [Some "fixed bug"]
  /\ ~ In 1%N (map sc_session_id
                 (sessions_with_comments (delete_comment 1 commented_store))).
Proof.
  split; [exact closed_store_reachable|]. split; [reflexivity|].
  split; [reflexivity|].
  exact (proj2 (comment_shows_in_view (fixed_bug 1 1) closed_store commented_store
                  closed_store_reachable eq_refl)).
Defined.

(** * The scripts *)

(** ** Objects *)

Section Objects.

Context {V : Type}.

Lemma get_set_same k (v : V) o : get_property k (set_property k v o) = Some v.
Proof.
  induction o as [|[k' v'] o IH]; simpl.
  - now rewrite String.eqb_refl.
  - destruct (String.eqb_spec k' k) as [->|N]; simpl.
    + now rewrite String.eqb_refl.
    + destruct (String.eqb_spec k' k); [contradiction|exact IH].
Qed.

Lemma get_set_other k k' (v : V) o :
  k <> k' -> get_property k (set_property k' v o) = get_property k o.
Proof.
  intros N. induction o as [|[k0 v0] o IH]; simpl.
  - destruct (String.eqb_spec k' k); [congruence|reflexivity].
  - destruct (String.eqb_spec k0 k') as [->|N0]; simpl.
    + destruct (String.eqb_spec k' k); [congruence|reflexivity].
    + destruct (String.eqb_spec k0 k); [reflexivity|exact IH].
Qed.

Lemma get_none_keys k (o : object V) :
  ~ In k (map fst o) -> get_property k o = None.
Proof.
  induction o as [|[k' v'] o IH]; simpl; intros N; [reflexivity|].
  destruct (String.eqb_spec k' k) as [->|_]; [tauto|]. apply IH. tauto.
Qed.

(** A property of [{...target, ...source}] is the source's when the source
    has it, the target's otherwise. *)
Lemma get_spread k (source : object V) : forall target,
  NoDup (map fst source) ->
  get_property k (spread target source)
  = match get_property k source with
    | Some v => Some v
    | None => get_property k target
    end.
Proof.
  unfold spread.
  induction source as [|[k1 v1] source IH]; intros target ND; simpl; [reflexivity|].
  inversion ND as [|? ? N ND']; subst.
  rewrite IH by assumption.
  destruct (String.eqb_spec k1 k) as [->|Q].
  - rewrite (get_none_keys k source N). apply get_set_same.
  - destruct (get_property k source); [reflexivity|].
    apply get_set_other. congruence.
Qed.

Lemma set_new k (v : V) o :
  ~ In k (map fst o) -> set_property k v o = o ++ [(k, v)].
Proof.
  induction o as [|[k' v'] o IH]; simpl; intros N; [reflexivity|].
  destruct (String.eqb_spec k' k) as [->|_]; [tauto|].
  rewrite IH by tauto. reflexivity.
Qed.

(** Copying an object gives the object. *)
Lemma spread_copy (source : object V) : forall target,
  NoDup (map fst (target ++ source)) -> spread target source = target ++ source.
Proof.
  unfold spread.
  induction source as [|[k v] source IH]; intros target ND; simpl.
  - now rewrite app_nil_r.
  - assert (N : ~ In k (map fst target)).
    { rewrite map_app in ND. simpl in ND.
      apply NoDup_remove_2 in ND. intros I. apply ND.
      apply in_or_app. now left. }
    rewrite (set_new k v target N).
    rewrite IH; rewrite <- app_assoc; [reflexivity|exact ND].
Qed.

End Objects.

(** ** [api.js] *)

(** X17. Without a stored username, missing or empty, none of the five API
    functions sends anything: each throws 'No username found. Please
    login.' before [fetch] is called.  With a username each sends exactly
    one request, to a URL under [API_BASE]. *)
Theorem api_calls_need_username :
  forall (J : Type) (username : option string) (fetch : api_request -> fetched J)
         (sessionId : uuid) (content changeType : string),
    let calls :=
      [ getUserSessions username fetch; getUserHistory username fetch;
        getAllChanges username fetch; getChangeTypes username fetch;
        api_postComment username fetch sessionId content changeType ] in
    match username with
    | None | Some EmptyString =>
        Forall (fun call => call = ([], thrown "No username found. Please login."))
          calls
    | Some _ =>
        Forall (fun call =>
                  exists r, fst call = [r]
                            /\ String.prefix API_BASE (rq_url r) = true)
          calls
    end.
Proof.
  intros J username fetch sessionId content changeType calls. subst calls.
  destruct username as [[|c u]|]; repeat constructor;
    eexists; (split; [reflexivity|reflexivity]).
Qed.

(** X18. Whatever the caller puts in the body, the body [fetchAPI] sends
    has the stored username under [username] and the caller's other
    properties unchanged; [postComment] sends the session id, the content and
    the change type as given, then the username. *)
Theorem fetchAPI_body_carries_username :
  forall (J : Type) (username : string) (fetch : api_request -> fetched J)
         (endpoint method : string) (body : object json_value),
    username <> "" ->
    NoDup (map fst body) ->
    (exists sent,
       fst (fetchAPI (Some username) fetch endpoint method (Some body))
       = [mk_api_request (API_BASE ++ endpoint) method
            [("Content-Type", "application/json")] (Some sent)]
       /\ get_property "username" sent = Some (json_string username)
       /\ forall k, k <> "username" -> get_property k sent = get_property k body)
    /\ (forall sessionId content changeType,
          fst (api_postComment (Some username) fetch sessionId content changeType)
          = [mk_api_request (API_BASE ++ "/comments") "POST"
               [("Content-Type", "application/json")]
               (Some [("session_id", json_id sessionId);
                      ("content", json_string content);
                      ("change_type", json_string changeType);
                      ("username", json_string username)])]).
Proof.
  intros J username fetch endpoint method body N ND.
  destruct username as [|c u]; [contradiction|]. split.
  - eexists. split; [reflexivity|]. split.
    + apply get_set_same.
    + intros k Q. rewrite get_set_other by assumption.
      rewrite get_spread by assumption.
      now destruct (get_property k body).
  - intros. reflexivity.
Qed.

Lemma fetchAPI_body_carries_username_witness :
  "alice" <> ""
  /\ NoDup (map fst [("username", json_string "mallory"); ("content", json_string "x")])
  /\ exists sent,
       fst (fetchAPI (J := unit) (Some "alice") (fun _ => rejected "offline")
              "/comments" "POST"
              (Some [("username", json_string "mallory"); ("content", json_string "x")]))
       = [mk_api_request (API_BASE ++ "/comments") "POST"
            [("Content-Type", "application/json")] (Some sent)]
       /\ get_property "username" sent = Some (json_string "alice").
Proof.
  assert (N : "alice" <> "") by discriminate.
  assert (ND : NoDup (map fst [("username", json_string "mallory");
                               ("content", json_string "x")])).
  { simpl. repeat constructor; simpl; intuition discriminate. }
  split; [exact N|]. split; [exact ND|].
  destruct (proj1 (fetchAPI_body_carries_username unit "alice"
                     (fun _ => rejected "offline") "/comments" "POST"
                     [("username", json_string "mallory"); ("content", json_string "x")]
                     N ND))
    as (sent & E & U & _).
  exists sent. split; assumption.
Defined.

(** X19. The three list requests do not say who asks: [getUserSessions],
    [getAllChanges] and [getChangeTypes] send the same body-less GET for
    every stored username; only [getUserHistory] names the user, in its
    URL. *)
Theorem list_requests_do_not_name_the_user :
  forall (J : Type) (u u' : string) (fetch fetch' : api_request -> fetched J),
    u <> "" -> u' <> "" ->
    fst (getUserSessions (Some u) fetch) = fst (getUserSessions (Some u') fetch')
    /\ fst (getAllChanges (Some u) fetch) = fst (getAllChanges (Some u') fetch')
    /\ fst (getChangeTypes (Some u) fetch) = fst (getChangeTypes (Some u') fetch')
    /\ fst (getUserSessions (Some u) fetch)
       = [mk_api_request (API_BASE ++ "/sessions") "GET"
            [("Content-Type", "application/json")] None]
    /\ fst (getUserHistory (Some u) fetch)
       = [mk_api_request (API_BASE ++ "/user-activity/" ++ u) "GET"
            [("Content-Type", "application/json")] None].
Proof.
  intros J u u' fetch fetch' N N'.
  destruct u as [|c u]; [contradiction|].
  destruct u' as [|c' u']; [contradiction|].
  repeat split; reflexivity.
Qed.

Lemma list_requests_do_not_name_the_user_witness :
  "alice" <> "" /\ "bob" <> ""
  /\ fst (getUserSessions (J := unit) (Some "alice") (fun _ => rejected "offline"))
     = fst (getUserSessions (J := unit) (Some "bob") (fun _ => rejected "offline")).
Proof.
  assert (N : "alice" <> "") by discriminate.
  assert (N' : "bob" <> "") by discriminate.
  split; [exact N|]. split; [exact N'|].
  exact (proj1 (list_requests_do_not_name_the_user unit "alice" "bob"
                  (fun _ => rejected "offline") (fun _ => rejected "offline") N N')).
Defined.

(** ** [apiRequest] *)

(** X20. The options [apiRequest] passes to [fetch] are the caller's, with
    one addition: when the caller gives no [headers], the headers are
    'Content-Type: application/json'.  When the caller gives [headers], the
    spread of [options] puts them back over the merged ones, so [fetch] gets
    the caller's headers as they are and the default Content-Type is lost
    unless the caller repeats it. *)
Theorem apiRequest_headers :
  forall (options : object init_value),
    NoDup (map fst options) ->
    let init := apiRequest_init options in
    (get_property "headers" options = None ->
     get_property "headers" init
     = Some (init_object [("Content-Type", "application/json")]))
    /\ (forall v, get_property "headers" options = Some v ->
          get_property "headers" init = Some v)
    /\ (forall k, k <> "headers" -> get_property k init = get_property k options)
    /\ (forall J (fetch : string -> object init_value -> fetched J) endpoint,
          fst (fst (apiRequest fetch endpoint options)) = (endpoint, init)).
Proof.
  intros options ND init. unfold init, apiRequest_init.
  split; [|split; [|split]].
  - intros E. rewrite get_spread by assumption. rewrite E.
    cbn [get_property]. rewrite String.eqb_refl.
    unfold merged_headers. rewrite E. reflexivity.
  - intros v E. rewrite get_spread by assumption. now rewrite E.
  - intros k N. rewrite get_spread by assumption.
    destruct (get_property k options); [reflexivity|].
    cbn [get_property]. destruct (String.eqb_spec "headers" k); [congruence|reflexivity].
  - intros J fetch endpoint. unfold apiRequest.
    destruct (fetch endpoint _) as [r|e];
      [destruct (rs_ok r); [destruct (rs_json r)|]|]; reflexivity.
Qed.

Lemma apiRequest_headers_witness :
  let options :=
    [("method", init_string "POST");
     ("headers", init_object [("Authorization", "Bearer t")])] in
  NoDup (map fst options)
  /\ get_property "headers" (apiRequest_init options)
     = Some (init_object [("Authorization", "Bearer t")]).
Proof.
  assert (ND : NoDup (map fst [("method", init_string "POST");
                               ("headers", init_object [("Authorization", "Bearer t")])])).
  { simpl. repeat constructor; simpl; intuition discriminate. }
  split; [exact ND|].
  exact (proj1 (proj2 (apiRequest_headers _ ND)) _ eq_refl).
Defined.

(** X21. [refreshUserData] never throws.  It asks for
    [/api/user-sessions/<username>] with the default JSON header and, when
    the response is ok and its body is JSON, returns the parsed body and
    shows nothing.  When [fetch] rejects, the status is not ok or the body is
    not JSON it returns [null] and shows the one toast 'Failed to refresh
    data'.  A toast always comes with [null]; [null] without a toast is the
    JSON [null] of an ok response. *)
Theorem refreshUserData_swallows_errors :
  forall (J : Type) (fetch : string -> object init_value -> fetched J)
         (username : string),
    let url := ("/api/user-sessions/" ++ username)%string in
    let init := [("headers", init_object [("Content-Type", "application/json")])] in
    (forall r data, fetch url init = resolved r -> rs_ok r = true ->
       rs_json r = returned data ->
       refreshUserData fetch username = (data, []))
    /\ (forall r e, fetch url init = resolved r -> rs_ok r = true ->
          rs_json r = thrown e ->
          refreshUserData fetch username = (None, ["Failed to refresh data"]))
    /\ (forall r, fetch url init = resolved r -> rs_ok r = false ->
          refreshUserData fetch username = (None, ["Failed to refresh data"]))
    /\ (forall e, fetch url init = rejected e ->
          refreshUserData fetch username = (None, ["Failed to refresh data"]))
    /\ (snd (refreshUserData fetch username) = ["Failed to refresh data"] ->
        fst (refreshUserData fetch username) = None)
    /\ (fst (refreshUserData fetch username) = None ->
        snd (refreshUserData fetch username) = [] ->
        exists r, fetch url init = resolved r /\ rs_ok r = true
                  /\ rs_json r = returned None).
Proof.
  intros J fetch username url init.
  assert (I : apiRequest_init [] = init) by reflexivity.
  unfold refreshUserData, apiRequest. rewrite I. fold url.
  repeat split.
  - intros r data E O D. now rewrite E, O, D.
  - intros r e E O D. now rewrite E, O, D.
  - intros r E O. now rewrite E, O.
  - intros e E. now rewrite E.
  - destruct (fetch url init) as [r|e];
      [destruct (rs_ok r); [destruct (rs_json r)|]|]; simpl;
      intros; try reflexivity; discriminate.
  - destruct (fetch url init) as [r|e];
      [destruct (rs_ok r) eqn:O; [destruct (rs_json r) eqn:D|]|]; simpl;
      intros N T; try discriminate.
    exists r. subst. auto.
Qed.

(** ** The changes page, again *)

(** X22. Grouping loses and repeats nothing: the cards of the changes page,
    read day by day, are a rearrangement of the list the page was given, and
    within a day they keep the order in which they arrived. *)
Theorem grouped_shows_each_session_once :
  forall (A : Type) (toLocaleDateString : timestamp -> string)
         (started_at : A -> timestamp) (changes : list A),
    let timeline := grouped toLocaleDateString started_at changes in
    Permutation (shown timeline) changes
    /\ List.length (shown timeline) = List.length changes
    /\ (forall d sessions, In (d, sessions) timeline ->
          sessions
          = filter (fun session =>
                      String.eqb (toLocaleDateString (started_at session)) d)
              changes).
Proof.
  intros A day started_at changes timeline.
  assert (P : forall acc,
            Permutation
              (shown (fold_left
                        (fun acc session =>
                           acc_push (day (started_at session)) session acc)
                        changes acc))
              (shown acc ++ changes)).
  { clear timeline.
    induction changes as [|session changes IH]; intros acc; simpl.
    - now rewrite app_nil_r.
    - rewrite IH, shown_push. simpl. apply Permutation_middle. }
  assert (Q : Permutation (shown timeline) changes) by apply (P []).
  split; [exact Q|]. split; [now apply Permutation_length|].
  intros d sessions I.
  now apply (grouped_by_day day started_at changes).
Qed.

(** ** Column widths *)









